(** * wayback_downloader: a shallow embedding of the two scripts

    The repository holds two scripts, [wayback_downloader.py] and
    [wayback_gather.py].  Both look up the snapshots of a URL in the
    Wayback Machine's CDX index, download every snapshot into the working
    directory and write a JSON status document; the first script can also
    retry the downloads a status document records as failed.

    Python strings are modelled by [string], the working directory by a
    finite map from path to content, the network by an oracle that answers
    the n-th GET of a run, and parsed JSON by an inductive type whose
    dynamic typing errors are explicit. *)

From Stdlib Require Import Ascii.
From Stdlib Require String.
From stdpp Require Import base option list gmap strings.

(** ** Python string operations *)

Module PyStr.

(** [len(s)]. *)
Definition len (s : string) : nat := String.length s.

(** [s[n:]] for [0 <= n]. *)
Fixpoint drop (n : nat) (s : string) : string :=
  match n, s with
  | 0, _ => s
  | S _, EmptyString => EmptyString
  | S n', String _ s' => drop n' s'
  end.

(** [s[:n]] for [0 <= n]. *)
Fixpoint take (n : nat) (s : string) : string :=
  match n, s with
  | 0, _ => EmptyString
  | S _, EmptyString => EmptyString
  | S n', String c s' => String c (take n' s')
  end.

(** [s[i:j]] for [0 <= i] and [0 <= j]: empty when [j <= i]. *)
Definition slice (i j : nat) (s : string) : string := take (j - i) (drop i s).

(** [s.startswith(p)]. *)
Fixpoint startswith (p s : string) : bool :=
  match p, s with
  | EmptyString, _ => true
  | String _ _, EmptyString => false
  | String a p', String b s' => Ascii.eqb a b && startswith p' s'
  end.

(** [s.index(sub)]: the position of the first occurrence of [sub], and
    [None] where Python raises [ValueError]. *)
Fixpoint index (sub s : string) : option nat :=
  if startswith sub s then Some 0
  else match s with
       | EmptyString => None
       | String _ s' => S <$> index sub s'
       end.

(** [s.split(c, 1)[0]]: the part of [s] before the first [c]. *)
Fixpoint before (c : ascii) (s : string) : string :=
  match s with
  | EmptyString => EmptyString
  | String a s' => if Ascii.eqb a c then EmptyString else String a (before c s')
  end.

(** [s.rfind(c) + 1]: the position just after the last [c], 0 without one. *)
Fixpoint rfind_succ (c : ascii) (s : string) : nat :=
  match s with
  | EmptyString => 0
  | String a s' =>
      match rfind_succ c s' with
      | 0 => if Ascii.eqb a c then 1 else 0
      | S k => S (S k)
      end
  end.

(** [posixpath.basename]: [i = p.rfind('/') + 1; return p[i:]]. *)
Definition basename (p : string) : string := drop (rfind_succ "/" p) p.

(** Character-wise map, the shape of [re.sub] with a one-character class. *)
Fixpoint map (f : ascii -> ascii) (s : string) : string :=
  match s with
  | EmptyString => EmptyString
  | String a s' => String (f a) (map f s')
  end.

Fixpoint forallb (f : ascii -> bool) (s : string) : bool :=
  match s with
  | EmptyString => true
  | String a s' => f a && forallb f s'
  end.

(** [sub in s], stated without reference to [index]. *)
Definition contains (sub s : string) : Prop :=
  exists a b : string, s = a +:+ sub +:+ b.

End PyStr.

(** ** The Filename Deriver *)

(** Membership in the class [[a-zA-Z0-9_.-]]. *)
Definition allowed_char (c : ascii) : bool :=
  let n := nat_of_ascii c in
  ((97 <=? n) && (n <=? 122)) || ((65 <=? n) && (n <=? 90))
  || ((48 <=? n) && (n <=? 57))
  || Ascii.eqb c "_" || Ascii.eqb c "." || Ascii.eqb c "-".

(** [re.sub(r'[^a-zA-Z0-9_.-]', '_', s)]. *)
Definition sanitize (s : string) : string :=
  PyStr.map (fun c => if allowed_char c then c else "_"%char) s.

(** Every character of [s] lies in [[a-zA-Z0-9_.-]]. *)
Definition all_allowed (s : string) : bool := PyStr.forallb allowed_char s.

(** [construct_file_name(url)], the same text in both scripts.  [None] is
    the value returned from the [except ValueError] branch. *)
Definition construct_file_name (url : string) : option string :=
  match PyStr.index "/web/" url with
  | None => None
  | Some i =>
      let start := i + 5 in
      match PyStr.index "if_/" url with
      | None => None
      | Some end_ =>
          let timestamp := PyStr.slice start end_ url in
          let path := PyStr.before "?" (PyStr.drop (end_ + 4) url) in
          let file_name := PyStr.basename path in
          let sanitized_file_name := sanitize file_name in
          Some (timestamp +:+ "_" +:+ sanitized_file_name)
      end
  end.

(** The markers occur in the expected order: ['/web/'], a timestamp, then
    ['if_/']. *)
Definition markers_in_order (url : string) : Prop :=
  exists pre ts rest : string, url = pre +:+ "/web/" +:+ ts +:+ "if_/" +:+ rest.

(** ** Parsed JSON and Python's dynamic operations on it *)

(** What [json.load] returns: [None], [bool], a number, [str], [list] or
    [dict].  A [dict] keeps its keys in insertion order; the value of a
    number is never inspected by the scripts. *)
#[warnings="-register-all"]
Inductive json : Type :=
| JNull
| JBool (b : bool)
| JNum (n : Z)
| JStr (s : string)
| JArr (l : list json)
| JObj (kv : list (string * json)).

(** The exceptions the retry code can raise and does not catch. *)
Inductive pyexn : Type := AttributeError | TypeError | KeyError.

(** A value, or an exception on its way up. *)
Inductive dyn (A : Type) : Type :=
| Val (a : A)
| Exn (e : pyexn).
Arguments Val {A} a.
Arguments Exn {A} e.

#[export] Instance dyn_ret : MRet dyn := fun A a => Val a.
#[export] Instance dyn_bind : MBind dyn := fun A B f m =>
  match m with Val a => f a | Exn e => Exn e end.

Fixpoint dyn_mapM {A B : Type} (f : A -> dyn B) (l : list A) : dyn (list B) :=
  match l with
  | [] => Val []
  | a :: l' => b ← f a; bs ← dyn_mapM f l'; Val (b :: bs)
  end.

Fixpoint dyn_filterM {A : Type} (f : A -> dyn bool) (l : list A) : dyn (list A) :=
  match l with
  | [] => Val []
  | a :: l' => keep ← f a; rest ← dyn_filterM f l'; Val (if (keep : bool) then a :: rest else rest)
  end.

(** [d.get(k)] on the key list of a [dict]. *)
Fixpoint dict_get {A : Type} (k : string) (kv : list (string * A)) : option A :=
  match kv with
  | [] => None
  | (k', v) :: kv' => if String.eqb k' k then Some v else dict_get k kv'
  end.

(** [d[k] = v]: an existing key keeps its place, a new one goes last. *)
Fixpoint dict_set {A : Type} (k : string) (v : A) (kv : list (string * A))
  : list (string * A) :=
  match kv with
  | [] => [(k, v)]
  | (k', v') :: kv' =>
      if String.eqb k' k then (k, v) :: kv' else (k', v') :: dict_set k v kv'
  end.

(** [x.get(k, default)]: only a [dict] has the method. *)
Definition py_get (x : json) (k : string) (default : json) : dyn json :=
  match x with
  | JObj kv => Val (from_option id default (dict_get k kv))
  | _ => Exn AttributeError
  end.

(** [x[k]] with a [str] key. *)
Definition py_getitem (x : json) (k : string) : dyn json :=
  match x with
  | JObj kv => match dict_get k kv with Some v => Val v | None => Exn KeyError end
  | _ => Exn TypeError
  end.

(** [x[k] = v] with a [str] key. *)
Definition py_setitem (x : json) (k : string) (v : json) : dyn json :=
  match x with
  | JObj kv => Val (JObj (dict_set k v kv))
  | _ => Exn TypeError
  end.

(** [x.append(v)]. *)
Definition py_append (x : json) (v : json) : dyn json :=
  match x with
  | JArr l => Val (JArr (l ++ [v]))
  | _ => Exn AttributeError
  end.

Fixpoint chars (s : string) : list json :=
  match s with
  | EmptyString => []
  | String c s' => JStr (String c EmptyString) :: chars s'
  end.

(** [for item in x]: the elements of a [list], the characters of a [str],
    the keys of a [dict]. *)
Definition py_iter (x : json) : dyn (list json) :=
  match x with
  | JArr l => Val l
  | JStr s => Val (chars s)
  | JObj kv => Val (JStr <$> kv.*1)
  | _ => Exn TypeError
  end.

(** [x == s] for a [str] [s]. *)
Definition py_eq_str (x : json) (s : string) : bool :=
  match x with
  | JStr t => String.eqb t s
  | _ => false
  end.

(** ** The status document *)

Record error_entry : Type := { e_url : string; e_error : string }.

Record status : Type :=
  { downloaded : list string; skipped : list string; errors : list error_entry }.

Definition entry_json (e : error_entry) : json :=
  JObj [("url", JStr (e_url e)); ("error", JStr (e_error e))].

(** The document as the scripts build and dump it. *)
Definition status_json (st : status) : json :=
  JObj [("downloaded", JArr (JStr <$> downloaded st));
        ("skipped", JArr (JStr <$> skipped st));
        ("errors", JArr (entry_json <$> errors st))].

(** ** The working directory and the network *)

(** The content of a file, up to what [json.load] makes of it: the text of a
    JSON document is identified with the document, and [Blob] is any content
    on which [json.load] raises [JSONDecodeError]. *)
Inductive content : Type :=
| Blob (bytes : string)
| Document (j : json).

(** The answer to a GET followed by [raise_for_status]. *)
Inductive response : Type :=
| Ok (body : content)
| RequestException (msg : string).

(** Files by path relative to the working directory, and the URLs requested
    so far, oldest first.  [write_file] is the effect of a write that
    succeeds; the runs in which an [open] fails are modelled further down,
    with [can_open]. *)
Record world : Type := { files : gmap string content; requests : list string }.

Definition path_exists (path : string) (w : world) : bool :=
  bool_decide (is_Some (files w !! path)).

Definition write_file (path : string) (c : content) (w : world) : world :=
  {| files := <[path := c]> (files w); requests := requests w |}.

Definition log_request (url : string) (w : world) : world :=
  {| files := files w; requests := requests w ++ [url] |}.

(** How a call ends: it returns, it calls [exit(code)], or an exception
    leaves it uncaught. *)
Inductive outcome (A : Type) : Type :=
| Returned (a : A)
| Exited (code : nat)
| Raised (e : pyexn).
Arguments Returned {A} a.
Arguments Exited {A} code.
Arguments Raised {A} e.

(** [if file_name:] is false for [None] and for the empty string. *)
Definition truthy (file_name : option string) : option string :=
  match file_name with
  | Some f => if String.eqb f "" then None else Some f
  | None => None
  end.

Definition empty_status : status := {| downloaded := []; skipped := []; errors := [] |}.

Definition add_downloaded (f : string) (st : status) : status :=
  {| downloaded := downloaded st ++ [f]; skipped := skipped st; errors := errors st |}.

Definition add_skipped (f : string) (st : status) : status :=
  {| downloaded := downloaded st; skipped := skipped st ++ [f]; errors := errors st |}.

Definition add_error (u msg : string) (st : status) : status :=
  {| downloaded := downloaded st; skipped := skipped st;
     errors := errors st ++ [{| e_url := u; e_error := msg |}] |}.

(** [create_status_file]: the name is derived from the base URL. *)
Definition status_file_name (base_url : string) : string :=
  "status_" +:+ sanitize base_url +:+ ".json".

Definition create_status_file (st : status) (base_url : string) (w : world) : world :=
  write_file (status_file_name base_url) (Document (status_json st)) w.

Section Network.

(** [http n url] is the answer to the GET of [url] issued after [n] earlier
    requests: any sequence of outcomes is some [http]. *)
Variable http : nat -> string -> response.

(** One iteration of the [for url in urls] loop of [downloader]. *)
Definition download_one (acc : status * world) (url : string) : status * world :=
  let '(st, w) := acc in
  match truthy (construct_file_name url) with
  | Some file_name =>
      if path_exists file_name w then (add_skipped file_name st, w)
      else
        match http (length (requests w)) url with
        | Ok body =>
            (add_downloaded file_name st, write_file file_name body (log_request url w))
        | RequestException msg => (add_error url msg st, log_request url w)
        end
  | None => (add_error url "Invalid file name" st, w)
  end.

Definition downloader_loop (urls : list string) (w : world) : status * world :=
  fold_left download_one urls (empty_status, w).

(** [downloader(urls, debug, base_url)]. *)
Definition downloader (urls : list string) (base_url : string) (w : world) : world :=
  let '(st, w') := downloader_loop urls w in
  create_status_file st base_url w'.

(** ** The Retry Runner *)

(** [failed_urls = [item["url"] for item in status_data.get("errors", [])]]. *)
Definition failed_urls_of (status_data : json) : dyn (list json) :=
  errs ← py_get status_data "errors" (JArr []);
  items ← py_iter errs;
  dyn_mapM (fun item => py_getitem item "url") items.

(** After a successful GET: append to ["downloaded"], drop the URL's entries
    from ["errors"]. *)
Definition record_success (status_data : json) (file_name url : string) : dyn json :=
  d ← py_getitem status_data "downloaded";
  d' ← py_append d (JStr file_name);
  sd ← py_setitem status_data "downloaded" d';
  errs ← py_getitem sd "errors";
  items ← py_iter errs;
  kept ← dyn_filterM
            (fun e => u ← py_getitem e "url"; Val (negb (py_eq_str u url))) items;
  py_setitem sd "errors" (JArr kept).

(** After a failed GET: overwrite the message of the URL's entries.  The
    entries are mutated in place, so only a [list] shows the change. *)
Definition record_failure (status_data : json) (url msg : string) : dyn json :=
  errs ← py_getitem status_data "errors";
  items ← py_iter errs;
  items' ← dyn_mapM
             (fun e => u ← py_getitem e "url";
                       if py_eq_str u url then py_setitem e "error" (JStr msg)
                       else Val e) items;
  match errs with
  | JArr _ => py_setitem status_data "errors" (JArr items')
  | _ => Val status_data
  end.

Definition lift {A : Type} (r : dyn A) (w : world) : outcome A * world :=
  match r with
  | Val a => (Returned a, w)
  | Exn e => (Raised e, w)
  end.

(** One iteration of the [for url in failed_urls] loop.  A [str] takes the
    path the code was written for.  On a [list], [index] looks for an element
    equal to the marker, so [construct_file_name] returns [None] unless both
    are elements, and then fails on [split]; every other value has no
    [index] at all. *)
Definition retry_one (url : json) (status_data : json) (w : world)
  : outcome json * world :=
  match url with
  | JStr u =>
      match truthy (construct_file_name u) with
      | Some file_name =>
          if path_exists file_name w then (Returned status_data, w)
          else
            match http (length (requests w)) u with
            | Ok body =>
                lift (record_success status_data file_name u)
                     (write_file file_name body (log_request u w))
            | RequestException msg =>
                lift (record_failure status_data u msg) (log_request u w)
            end
      | None => (Returned status_data, w)
      end
  | JArr l =>
      if existsb (fun x => py_eq_str x "/web/") l
         && existsb (fun x => py_eq_str x "if_/") l
      then (Raised AttributeError, w)
      else (Returned status_data, w)
  | _ => (Raised AttributeError, w)
  end.

Fixpoint retry_loop (failed_urls : list json) (status_data : json) (w : world)
  : outcome json * world :=
  match failed_urls with
  | [] => (Returned status_data, w)
  | url :: rest =>
      match retry_one url status_data w with
      | (Returned sd, w') => retry_loop rest sd w'
      | stop => stop
      end
  end.

(** [retry_failed_downloads(status_file, debug)]. *)
Definition retry_failed_downloads (status_file : string) (w : world)
  : outcome unit * world :=
  match files w !! status_file with
  | None => (Exited 1, w)
  | Some (Blob _) => (Exited 1, w)
  | Some (Document status_data) =>
      match failed_urls_of status_data with
      | Exn e => (Raised e, w)
      | Val [] => (Returned tt, w)
      | Val failed_urls =>
          match retry_loop failed_urls status_data w with
          | (Returned sd, w') => (Returned tt, write_file status_file (Document sd) w')
          | (Exited c, w') => (Exited c, w')
          | (Raised e, w') => (Raised e, w')
          end
      end
  end.

End Network.

(** ** URL Archive Lookup *)

Definition header : list string := ["timestamp"; "original"].

(** [f"https://web.archive.org/web/{i[0]}if_/{i[1]}"] for a row of strings
    with at least two elements. *)
Definition snapshot_url (i : list string) : string :=
  "https://web.archive.org/web/" +:+ nth 0 i "" +:+ "if_/" +:+ nth 1 i "".

(** [get_all_links] after the [try] block: [None] stands for a request or a
    parse that failed, [Some obj] for the parsed rows. *)
Module Downloader.

Definition url_list (obj : list (list string)) : list string :=
  snapshot_url <$>
    List.filter (fun i => (1 <? length i) && bool_decide (i <> header)) obj.

Definition get_all_links (fetched : option (list (list string)))
  : outcome (list string) :=
  match fetched with
  | None => Exited 1
  | Some obj =>
      match url_list obj with
      | [] => Exited 1
      | l => Returned l
      end
  end.

End Downloader.

Module Gather.

Definition drop_header (obj : list (list string)) : list (list string) :=
  match obj with
  | first :: rest => if bool_decide (first = header) then rest else obj
  | [] => obj
  end.

Definition url_list (obj : list (list string)) : list string :=
  snapshot_url <$> List.filter (fun i => 1 <? length i) (drop_header obj).

Definition get_all_links (fetched : option (list (list string)))
  : outcome (list string) :=
  match fetched with
  | None => Exited 1
  | Some obj =>
      match url_list obj with
      | [] => Exited 1
      | l => Returned l
      end
  end.

End Gather.

(** ** What a status document says about a URL *)

(** A URL is represented in [downloaded] or [skipped] by its derived file
    name, and in [errors] by an entry that carries it. *)
Definition in_downloaded (st : status) (u : string) : bool :=
  match construct_file_name u with
  | Some f => bool_decide (f ∈ downloaded st)
  | None => false
  end.

Definition in_skipped (st : status) (u : string) : bool :=
  match construct_file_name u with
  | Some f => bool_decide (f ∈ skipped st)
  | None => false
  end.

Definition in_errors (st : status) (u : string) : bool :=
  bool_decide (u ∈ (e_url <$> errors st)).

(** The number of lists, out of the three, that represent the URL. *)
Definition lists_representing (st : status) (u : string) : nat :=
  Nat.b2n (in_downloaded st u) + Nat.b2n (in_skipped st u) + Nat.b2n (in_errors st u).

(** The file names derived for the entries of a URL list, in order. *)
Definition derived_names (urls : list string) : list string :=
  omap construct_file_name urls.

(** No URL is represented in two lists. *)
Definition exclusive (st : status) : Prop :=
  forall u f, construct_file_name u = Some f ->
    (f ∈ downloaded st -> f ∉ skipped st)
    /\ (u ∈ (e_url <$> errors st) -> (f ∉ downloaded st) /\ f ∉ skipped st).

(** Different URLs of [errors] derive different file names. *)
Definition errors_distinct (st : status) : Prop :=
  forall u u' f, u ∈ (e_url <$> errors st) -> u' ∈ (e_url <$> errors st) ->
    construct_file_name u = Some f -> construct_file_name u' = Some f -> u = u'.

(** ** The retry loop on a well-formed status document *)

Definition remove_errors (u : string) (st : status) : status :=
  {| downloaded := downloaded st; skipped := skipped st;
     errors := List.filter (fun e => negb (String.eqb (e_url e) u)) (errors st) |}.

Definition update_errors (u msg : string) (st : status) : status :=
  {| downloaded := downloaded st; skipped := skipped st;
     errors := (fun e => if String.eqb (e_url e) u
                         then {| e_url := e_url e; e_error := msg |} else e)
               <$> errors st |}.

(** [retry_one] read on the record instead of the parsed document;
    [retry_one_status_json] relates the two. *)
Definition retry_one_status (http : nat -> string -> response)
    (u : string) (acc : status * world) : status * world :=
  let '(st, w) := acc in
  match truthy (construct_file_name u) with
  | Some file_name =>
      if path_exists file_name w then (st, w)
      else
        match http (length (requests w)) u with
        | Ok body =>
            (remove_errors u (add_downloaded file_name st),
             write_file file_name body (log_request u w))
        | RequestException msg => (update_errors u msg st, log_request u w)
        end
  | None => (st, w)
  end.

Definition retry_loop_status (http : nat -> string -> response)
    (us : list string) (acc : status * world) : status * world :=
  fold_left (fun a u => retry_one_status http u a) us acc.

(** The number of entries of a status document. *)
Definition entries (st : status) : nat :=
  length (downloaded st) + length (skipped st) + length (errors st).

(** ** Concrete inputs used in the examples *)

Definition fresh_world : world := {| files := ∅; requests := [] |}.

Definition url_a : string := "https://web.archive.org/web/2020if_/http://e.com/a.html".
Definition url_b : string := "https://web.archive.org/web/2021if_/http://e.com/b.html".

(** Every GET succeeds. *)
Definition http_up : nat -> string -> response := fun _ _ => Ok (Blob "<html>").

(** Every GET fails. *)
Definition http_down : nat -> string -> response :=
  fun _ _ => RequestException "timed out".

(** The first GET succeeds and every later one fails. *)
Definition http_first : nat -> string -> response :=
  fun n _ => if n =? 0 then Ok (Blob "<html>") else RequestException "timed out".

(** A status document with two failed downloads, and a working directory
    that holds nothing but its file. *)
Definition two_errors : status :=
  {| downloaded := []; skipped := [];
     errors := [{| e_url := url_a; e_error := "old a" |};
                {| e_url := url_b; e_error := "old b" |}] |}.

Definition two_errors_world : world :=
  {| files := {[ "status.json" := Document (status_json two_errors) ]};
     requests := [] |}.

(** The same working directory once the file of [url_a] is in place. *)
Definition two_errors_world_a : world :=
  write_file "2020_a.html" (Blob "<html>") two_errors_world.

(** ** The command line and the two entry points *)

(** The string holds no ['/']. *)
Definition no_slash (s : string) : bool :=
  PyStr.forallb (fun c => negb (Ascii.eqb c "/")) s.

(** The address [get_all_links] requests for a base URL. *)
Definition cdx_url (url : string) : string :=
  "https://web.archive.org/cdx/search/cdx?url=" +:+ url
  +:+ "&output=json&fl=timestamp,original&filter=statuscode:200&collapse=digest".

(** What [setup_argparse] returns in [wayback_downloader.py]; an option
    that is not given is [None].  [logger] only prints, so [a_debug]
    changes nothing below. *)
Record args : Type :=
  { a_debug : bool; a_url : option string; a_retry : option string }.

Section Main.

(** [cdx address] is what the index answers: [None] when the request or the
    parse fails, the parsed rows otherwise. *)
Variable cdx : string -> option (list (list string)).
Variable http : nat -> string -> response.

(** [url_list = get_all_links(url, debug); downloader(url_list, debug, url)]
    with the [get_all_links] of either script.  The lookup is a request of
    its own. *)
Definition lookup_and_download
    (get_all_links : option (list (list string)) -> outcome (list string))
    (url : string) (w : world) : outcome unit * world :=
  match get_all_links (cdx (cdx_url url)) with
  | Returned url_list =>
      (Returned tt, downloader http url_list url (log_request (cdx_url url) w))
  | Exited c => (Exited c, log_request (cdx_url url) w)
  | Raised e => (Raised e, log_request (cdx_url url) w)
  end.

(** [main()] of [wayback_downloader.py] once [setup_argparse()] has
    returned [a]: [if args.retry: ... elif args.url: ... else: ...]. *)
Definition downloader_main (a : args) (w : world) : outcome unit * world :=
  match truthy (a_retry a) with
  | Some status_file => retry_failed_downloads http status_file w
  | None =>
      match truthy (a_url a) with
      | Some url => lookup_and_download Downloader.get_all_links url w
      | None => (Returned tt, w)
      end
  end.

(** [main()] of [wayback_gather.py]: [--url] is required and is not tested. *)
Definition gather_main (url : string) (w : world) : outcome unit * world :=
  lookup_and_download Gather.get_all_links url w.

End Main.

(** An index that answers every lookup with a header row and one snapshot. *)
Definition cdx_example : string -> option (list (list string)) :=
  fun _ => Some [header; ["2020"; "http://e.com/a.html"]].

(** ** Runs in which [open] can fail *)

(** [write_file] above is the effect of a write that succeeds.  The scripts
    catch [RequestException] only, so the [OSError] of an [open] that fails
    (a derived name with a ['/'] whose directory is missing, a name that is
    too long, a directory that cannot be written) ends the run on the spot.
    A run then ends as before or with that error. *)
Inductive ending (A : Type) : Type :=
| Ends (o : outcome A)
| OpenFailed (path : string).
Arguments Ends {A} o.
Arguments OpenFailed {A} path.

Definition lift_io {A : Type} (r : dyn A) (w : world) : ending A * world :=
  match r with
  | Val a => (Ends (Returned a), w)
  | Exn e => (Ends (Raised e), w)
  end.

Section Opens.

Variable http : nat -> string -> response.

(** [can_open path]: opening [path] for writing succeeds. *)
Variable can_open : string -> bool.

(** The [for url in urls] loop of [downloader]: the [status] built so far
    and the world, or the path whose [open] failed and the world it left. *)
Fixpoint download_loop_io (urls : list string) (st : status) (w : world)
  : (status * world) + (string * world) :=
  match urls with
  | [] => inl (st, w)
  | url :: rest =>
      match truthy (construct_file_name url) with
      | Some file_name =>
          if path_exists file_name w
          then download_loop_io rest (add_skipped file_name st) w
          else
            match http (length (requests w)) url with
            | Ok body =>
                if can_open file_name
                then download_loop_io rest (add_downloaded file_name st)
                       (write_file file_name body (log_request url w))
                else inr (file_name, log_request url w)
            | RequestException msg =>
                download_loop_io rest (add_error url msg st) (log_request url w)
            end
      | None => download_loop_io rest (add_error url "Invalid file name" st) w
      end
  end.

(** [downloader(urls, debug, base_url)]: [create_status_file] is reached
    only when the loop got through, and opens a file of its own. *)
Definition downloader_io (urls : list string) (base_url : string) (w : world)
  : ending unit * world :=
  match download_loop_io urls empty_status w with
  | inl (st, w') =>
      if can_open (status_file_name base_url)
      then (Ends (Returned tt), create_status_file st base_url w')
      else (OpenFailed (status_file_name base_url), w')
  | inr (path, w') => (OpenFailed path, w')
  end.

(** One iteration of the retry loop. *)
Definition retry_one_io (url : json) (status_data : json) (w : world)
  : ending json * world :=
  match url with
  | JStr u =>
      match truthy (construct_file_name u) with
      | Some file_name =>
          if path_exists file_name w then (Ends (Returned status_data), w)
          else
            match http (length (requests w)) u with
            | Ok body =>
                if can_open file_name
                then lift_io (record_success status_data file_name u)
                       (write_file file_name body (log_request u w))
                else (OpenFailed file_name, log_request u w)
            | RequestException msg =>
                lift_io (record_failure status_data u msg) (log_request u w)
            end
      | None => (Ends (Returned status_data), w)
      end
  | JArr l =>
      if existsb (fun x => py_eq_str x "/web/") l
         && existsb (fun x => py_eq_str x "if_/") l
      then (Ends (Raised AttributeError), w)
      else (Ends (Returned status_data), w)
  | _ => (Ends (Raised AttributeError), w)
  end.

Fixpoint retry_loop_io (failed_urls : list json) (status_data : json) (w : world)
  : ending json * world :=
  match failed_urls with
  | [] => (Ends (Returned status_data), w)
  | url :: rest =>
      match retry_one_io url status_data w with
      | (Ends (Returned sd), w') => retry_loop_io rest sd w'
      | stop => stop
      end
  end.

(** [retry_failed_downloads(status_file, debug)]; the rewrite of the status
    file at the end opens it for writing. *)
Definition retry_failed_downloads_io (status_file : string) (w : world)
  : ending unit * world :=
  match files w !! status_file with
  | None => (Ends (Exited 1), w)
  | Some (Blob _) => (Ends (Exited 1), w)
  | Some (Document status_data) =>
      match failed_urls_of status_data with
      | Exn e => (Ends (Raised e), w)
      | Val [] => (Ends (Returned tt), w)
      | Val failed_urls =>
          match retry_loop_io failed_urls status_data w with
          | (Ends (Returned sd), w') =>
              if can_open status_file
              then (Ends (Returned tt), write_file status_file (Document sd) w')
              else (OpenFailed status_file, w')
          | (Ends (Exited c), w') => (Ends (Exited c), w')
          | (Ends (Raised e), w') => (Ends (Raised e), w')
          | (OpenFailed path, w') => (OpenFailed path, w')
          end
      end
  end.

End Opens.

Section MainIO.

Variable cdx : string -> option (list (list string)).
Variable http : nat -> string -> response.
Variable can_open : string -> bool.

Definition lookup_and_download_io
    (get_all_links : option (list (list string)) -> outcome (list string))
    (url : string) (w : world) : ending unit * world :=
  match get_all_links (cdx (cdx_url url)) with
  | Returned url_list =>
      downloader_io http can_open url_list url (log_request (cdx_url url) w)
  | Exited c => (Ends (Exited c), log_request (cdx_url url) w)
  | Raised e => (Ends (Raised e), log_request (cdx_url url) w)
  end.

(** [main()] of [wayback_downloader.py] from its first line.  [parsed] is
    how [setup_argparse()] ends: it returns the arguments, or [parse_args]
    leaves the process with a status of its own (2 for a command line it
    rejects, 0 after [-h]). *)
Definition downloader_main_io (parsed : outcome args) (w : world)
  : ending unit * world :=
  match parsed with
  | Returned a =>
      match truthy (a_retry a) with
      | Some status_file => retry_failed_downloads_io http can_open status_file w
      | None =>
          match truthy (a_url a) with
          | Some url => lookup_and_download_io Downloader.get_all_links url w
          | None => (Ends (Returned tt), w)
          end
      end
  | Exited c => (Ends (Exited c), w)
  | Raised e => (Ends (Raised e), w)
  end.

End MainIO.

(** A working directory without subdirectories: [open] succeeds for the
    names of at most 255 characters that hold no ['/']. *)
Definition flat_directory : string -> bool :=
  fun path => (String.length path <=? 255) && no_slash path.

(** * Properties *)

(** ** Strings *)

Lemma app_cons (c : ascii) (a b : string) : String c a +:+ b = String c (a +:+ b).
Proof. reflexivity. Qed.

Lemma app_empty_l (b : string) : "" +:+ b = b.
Proof. reflexivity. Qed.

Lemma app_assoc_s (a b c : string) : (a +:+ b) +:+ c = a +:+ b +:+ c.
Proof. induction a as [|x a IH]; [done|]. by rewrite !app_cons, IH. Qed.

Lemma length_app_s (a b : string) :
  String.length (a +:+ b) = String.length a + String.length b.
Proof. induction a as [|x a IH]; [done|]. rewrite app_cons. simpl. by rewrite IH. Qed.

Lemma drop_app_length (a b : string) : PyStr.drop (String.length a) (a +:+ b) = b.
Proof. induction a as [|x a IH]; [by destruct b|]. by rewrite app_cons. Qed.

Lemma take_app_length (a b : string) : PyStr.take (String.length a) (a +:+ b) = a.
Proof.
  induction a as [|x a IH]; [by destruct b|].
  rewrite app_cons. simpl. by rewrite IH.
Qed.

Lemma startswith_app (p b : string) : PyStr.startswith p (p +:+ b) = true.
Proof.
  induction p as [|x p IH]; [done|].
  rewrite app_cons. simpl. by rewrite Ascii.eqb_refl, IH.
Qed.

Lemma startswith_inv (p s : string) :
  PyStr.startswith p s = true -> exists b, s = p +:+ b.
Proof.
  revert s. induction p as [|x p IH]; intros s H.
  - by exists s.
  - destruct s as [|y s]; [done|]. simpl in H.
    apply andb_true_iff in H as [Hxy Hp]. apply Ascii.eqb_eq in Hxy as ->.
    destruct (IH _ Hp) as [b ->]. by exists b.
Qed.

(** [index] finds an occurrence ... *)
Lemma index_Some (sub s : string) (i : nat) :
  PyStr.index sub s = Some i ->
  exists a b, s = a +:+ sub +:+ b /\ String.length a = i.
Proof.
  revert i. induction s as [|c s IH]; intros i; simpl.
  - destruct (PyStr.startswith sub "") eqn:E; [|done].
    intros [= <-]. apply startswith_inv in E as [b ->]. by exists "", b.
  - destruct (PyStr.startswith sub (String c s)) eqn:E.
    + intros [= <-]. apply startswith_inv in E as [b ->]. by exists "", b.
    + destruct (PyStr.index sub s) as [j|]; [|done].
      intros [= <-]. destruct (IH j eq_refl) as (a & b & -> & <-).
      by exists (String c a), b.
Qed.

(** ... and finds one whenever there is one. *)
Lemma index_contains (sub s : string) :
  PyStr.contains sub s -> is_Some (PyStr.index sub s).
Proof.
  intros (a & b & ->). induction a as [|c a IH].
  - rewrite app_empty_l. destruct sub, b; simpl; rewrite ?Ascii.eqb_refl, ?startswith_app; eauto.
  - rewrite app_cons. simpl.
    destruct (PyStr.startswith sub (String c (a +:+ sub +:+ b))); [eauto|].
    destruct IH as [j ->]. eauto.
Qed.

Lemma index_None (sub s : string) :
  PyStr.index sub s = None <-> ~ PyStr.contains sub s.
Proof.
  split.
  - intros H Hc. apply index_contains in Hc as [j Hj]. congruence.
  - intros Hn. destruct (PyStr.index sub s) as [j|] eqn:E; [|done].
    destruct Hn. apply index_Some in E as (a & b & -> & _). by exists a, b.
Qed.

Lemma allowed_char_sanitized (c : ascii) :
  allowed_char (if allowed_char c then c else "_"%char) = true.
Proof. by destruct (allowed_char c) eqn:E. Qed.

Lemma all_allowed_sanitize (s : string) : all_allowed (sanitize s) = true.
Proof.
  induction s as [|c s IH]; [done|].
  unfold all_allowed, sanitize in *. simpl. by rewrite allowed_char_sanitized, IH.
Qed.

Lemma all_allowed_app (a b : string) :
  all_allowed (a +:+ b) = all_allowed a && all_allowed b.
Proof.
  induction a as [|c a IH]; [done|].
  rewrite app_cons. unfold all_allowed in *. simpl. by rewrite IH, andb_assoc.
Qed.

Lemma construct_file_name_nonempty (u f : string) :
  construct_file_name u = Some f -> f <> "".
Proof.
  unfold construct_file_name.
  destruct (PyStr.index "/web/" u); [|done]. destruct (PyStr.index "if_/" u); [|done].
  intros [= <-]. by destruct (PyStr.slice _ _ _).
Qed.

Lemma truthy_construct_file_name (u : string) :
  truthy (construct_file_name u) = construct_file_name u.
Proof.
  destruct (construct_file_name u) as [f|] eqn:E; [|done]. simpl.
  apply construct_file_name_nonempty in E. by apply String.eqb_neq in E as ->.
Qed.

(** ** The Filename Deriver *)

(** C1 (as amended).  When the first ['/web/'] of the URL is followed by
    [ts] and the first ['if_/'] comes right after [ts], the derived name is
    [ts], an underscore and the sanitized last path segment of what follows
    ['if_/'] up to the first ['?'].  The sanitized segment has no character
    outside [[a-zA-Z0-9_.-]]; the timestamp is copied as it is, so the whole
    name is free of such characters exactly when [ts] is.  The URL of the
    spec's example yields ['20200101000000_b.html']. *)
Theorem construct_file_name_form (pre ts rest : string) :
  PyStr.index "/web/" (pre +:+ "/web/" +:+ ts +:+ "if_/" +:+ rest)
    = Some (String.length pre) ->
  PyStr.index "if_/" (pre +:+ "/web/" +:+ ts +:+ "if_/" +:+ rest)
    = Some (String.length pre + 5 + String.length ts) ->
  construct_file_name (pre +:+ "/web/" +:+ ts +:+ "if_/" +:+ rest)
    = Some (ts +:+ "_" +:+ sanitize (PyStr.basename (PyStr.before "?" rest)))
  /\ all_allowed (sanitize (PyStr.basename (PyStr.before "?" rest))) = true
  /\ all_allowed (ts +:+ "_" +:+ sanitize (PyStr.basename (PyStr.before "?" rest)))
     = all_allowed ts
  /\ construct_file_name
       "https://web.archive.org/web/20200101000000if_/https://example.com/a/b.html?x=1"
     = Some "20200101000000_b.html".
Proof.
  intros Hweb Hif. repeat split.
  - unfold construct_file_name. rewrite Hweb, Hif. do 3 f_equal.
    + unfold PyStr.slice.
      replace (String.length pre + 5 + String.length ts - (String.length pre + 5))
        with (String.length ts) by lia.
      rewrite <- (app_assoc_s pre "/web/").
      replace (String.length pre + 5) with (String.length (pre +:+ "/web/"))
        by (by rewrite length_app_s).
      by rewrite drop_app_length, take_app_length.
    + rewrite <- (app_assoc_s pre "/web/"), <- (app_assoc_s _ ts), <- (app_assoc_s _ "if_/").
      replace (String.length pre + 5 + String.length ts + 4)
        with (String.length (((pre +:+ "/web/") +:+ ts) +:+ "if_/"))
        by (rewrite !length_app_s; simpl; lia).
      by rewrite drop_app_length.
  - apply all_allowed_sanitize.
  - rewrite !all_allowed_app, all_allowed_sanitize.
    change (all_allowed "_") with true. by rewrite !andb_true_r.
Qed.

Lemma construct_file_name_form_witness :
  construct_file_name
    ("https://web.archive.org" +:+ "/web/" +:+ "2020" +:+ "if_/" +:+ "http://e.com/a/b c.txt?q=1")
    = Some ("2020" +:+ "_" +:+
            sanitize (PyStr.basename (PyStr.before "?" "http://e.com/a/b c.txt?q=1")))
  /\ all_allowed (sanitize (PyStr.basename (PyStr.before "?" "http://e.com/a/b c.txt?q=1")))
     = true
  /\ all_allowed ("2020" +:+ "_" +:+
       sanitize (PyStr.basename (PyStr.before "?" "http://e.com/a/b c.txt?q=1")))
     = all_allowed "2020"
  /\ construct_file_name
       "https://web.archive.org/web/20200101000000if_/https://example.com/a/b.html?x=1"
     = Some "20200101000000_b.html".
Proof.
  exact (construct_file_name_form "https://web.archive.org" "2020"
           "http://e.com/a/b c.txt?q=1" eq_refl eq_refl).
Defined.

(** C1 as stated fails: the markers are in order, yet the derived name
    carries the space of the timestamp. *)
Lemma construct_file_name_keeps_timestamp :
  markers_in_order "https://web.archive.org/web/2020 01if_/https://example.com/b.html"
  /\ construct_file_name
       "https://web.archive.org/web/2020 01if_/https://example.com/b.html"
     = Some "2020 01_b.html"
  /\ all_allowed "2020 01_b.html" = false.
Proof.
  split; [|done].
  by exists "https://web.archive.org", "2020 01", "https://example.com/b.html".
Qed.

(** C2 (as amended).  The deriver returns [None] exactly for the URLs that
    lack ['/web/'] or lack ['if_/']; the order of the two markers is not
    looked at. *)
Theorem construct_file_name_None (url : string) :
  construct_file_name url = None
  <-> ~ PyStr.contains "/web/" url \/ ~ PyStr.contains "if_/" url.
Proof.
  unfold construct_file_name. split.
  - destruct (PyStr.index "/web/" url) eqn:Hweb.
    + destruct (PyStr.index "if_/" url) eqn:Hif; [done|].
      intros _. right. by apply index_None.
    + intros _. left. by apply index_None.
  - intros [H|H]; apply index_None in H; rewrite H; [done|].
    by destruct (PyStr.index "/web/" url).
Qed.

(** C2 as stated fails: here ['if_/'] comes before ['/web/'], so the markers
    are not in the expected order, and a name is returned all the same. *)
Lemma construct_file_name_wrong_order :
  ~ markers_in_order "if_//web/" /\ construct_file_name "if_//web/" = Some "_".
Proof.
  split; [|done].
  intros (pre & ts & rest & H).
  assert (Hlen := f_equal String.length H).
  rewrite !length_app_s in Hlen. simpl in Hlen.
  destruct pre; [|simpl in Hlen; lia].
  destruct ts; [|simpl in Hlen; lia].
  discriminate H.
Qed.

(** ** URL Archive Lookup *)

Lemma filter_no_header (rows : list (list string)) :
  header ∉ rows ->
  List.filter (fun i => (1 <? length i) && bool_decide (i <> header)) rows
  = List.filter (fun i => 1 <? length i) rows.
Proof.
  induction rows as [|r rows IH]; intros Hn; [done|].
  apply not_elem_of_cons in Hn as [Hr Hrows]. simpl.
  rewrite (bool_decide_eq_true_2 (r <> header)) by done.
  rewrite andb_true_r, IH by done. done.
Qed.

Lemma url_list_agree (obj : list (list string)) :
  header ∉ tail obj -> Downloader.url_list obj = Gather.url_list obj.
Proof.
  unfold Downloader.url_list, Gather.url_list. intros Hn. f_equal.
  destruct obj as [|first rest]; [done|]. simpl in *.
  destruct (decide (first = header)) as [->|Hne].
  - rewrite (bool_decide_eq_true_2 (header = header)) by done.
    by apply filter_no_header.
  - rewrite (bool_decide_eq_true_2 (first <> header)) by done.
    rewrite (bool_decide_eq_false_2 (first = header)) by done.
    rewrite andb_true_r. simpl. by rewrite filter_no_header.
Qed.

(** C7 (as amended).  The two scripts compute the same result from a fetched
    response whose rows after the first are not the header row. *)
Theorem get_all_links_agree (fetched : option (list (list string))) :
  (forall obj, fetched = Some obj -> header ∉ tail obj) ->
  Downloader.get_all_links fetched = Gather.get_all_links fetched.
Proof.
  intros H. destruct fetched as [obj|]; [|done]. simpl.
  by rewrite url_list_agree by auto.
Qed.

Lemma get_all_links_agree_witness :
  Downloader.get_all_links (Some [header; ["2020"; "http://e.com/"]; ["bad"]])
  = Gather.get_all_links (Some [header; ["2020"; "http://e.com/"]; ["bad"]]).
Proof.
  apply get_all_links_agree. intros obj [= <-]. simpl.
  apply (bool_decide_unpack _). vm_compute. exact I.
Defined.

(** C7 as stated fails: a header row that is not the first row is dropped by
    one script and turned into a snapshot URL by the other. *)
Lemma get_all_links_differ :
  Downloader.get_all_links (Some [["2020"; "http://e.com/"]; header])
  = Returned ["https://web.archive.org/web/2020if_/http://e.com/"]
  /\ Gather.get_all_links (Some [["2020"; "http://e.com/"]; header])
     = Returned ["https://web.archive.org/web/2020if_/http://e.com/";
                 "https://web.archive.org/web/timestampif_/original"].
Proof. split; reflexivity. Qed.

(** ** The Download Executor *)

Section Download.

Variable http : nat -> string -> response.

Lemma download_one_entries (acc : status * world) (u : string) :
  entries (download_one http acc u).1 = S (entries acc.1).
Proof.
  destruct acc as [st w]. unfold download_one, entries.
  destruct (truthy _); [destruct (path_exists _ _); [|destruct (http _ _)]|];
    simpl; rewrite length_app; simpl; lia.
Qed.

Lemma fold_download_entries (urls : list string) (acc : status * world) :
  entries (fold_left (download_one http) urls acc).1 = entries acc.1 + length urls.
Proof.
  revert acc. induction urls as [|u urls IH]; intros acc; simpl; [lia|].
  rewrite IH, download_one_entries. lia.
Qed.

Lemma download_one_files (acc : status * world) (u p : string) :
  is_Some (files acc.2 !! p) -> is_Some (files (download_one http acc u).2 !! p).
Proof.
  destruct acc as [st w]. unfold download_one. intros Hp.
  destruct (truthy _); [destruct (path_exists _ _); [|destruct (http _ _)]|];
    simpl; try done.
  rewrite lookup_insert. by case_decide.
Qed.

Lemma fold_download_files (urls : list string) (acc : status * world) (p : string) :
  is_Some (files acc.2 !! p) ->
  is_Some (files (fold_left (download_one http) urls acc).2 !! p).
Proof.
  revert acc. induction urls as [|u urls IH]; intros acc Hp; simpl; [done|].
  by apply IH, download_one_files.
Qed.

Lemma download_one_errors (acc : status * world) (u : string) :
  exists l, errors (download_one http acc u).1 = errors acc.1 ++ l.
Proof.
  destruct acc as [st w]. unfold download_one.
  destruct (truthy _); [destruct (path_exists _ _); [|destruct (http _ _)]|];
    simpl; eauto; exists []; by rewrite app_nil_r.
Qed.

Lemma fold_download_errors (urls : list string) (acc : status * world) :
  exists l, errors (fold_left (download_one http) urls acc).1 = errors acc.1 ++ l.
Proof.
  revert acc. induction urls as [|u urls IH]; intros acc; simpl.
  - exists []. by rewrite app_nil_r.
  - destruct (IH (download_one http acc u)) as [l1 ->].
    destruct (download_one_errors acc u) as [l2 ->].
    exists (l2 ++ l1). by rewrite app_assoc.
Qed.

(** A step that records no error leaves the file of its URL in place. *)
Lemma download_one_no_error (st : status) (w : world) (u : string) :
  errors (download_one http (st, w) u).1 = [] ->
  exists f, construct_file_name u = Some f
            /\ is_Some (files (download_one http (st, w) u).2 !! f).
Proof.
  unfold download_one. rewrite truthy_construct_file_name.
  destruct (construct_file_name u) as [f|]; simpl.
  - unfold path_exists. case_bool_decide as Hex.
    + intros _. by exists f.
    + destruct (http _ _); simpl.
      * intros _. exists f. split; [done|]. rewrite lookup_insert_eq. eauto.
      * intros H. by apply app_eq_nil in H as [_ ?].
  - intros H. by apply app_eq_nil in H as [_ ?].
Qed.

Lemma fold_download_no_error (urls : list string) (acc : status * world) :
  errors (fold_left (download_one http) urls acc).1 = [] ->
  forall u, u ∈ urls ->
    exists f, construct_file_name u = Some f
              /\ is_Some (files (fold_left (download_one http) urls acc).2 !! f).
Proof.
  revert acc. induction urls as [|u0 urls IH]; intros acc Herr u Hu.
  - by apply elem_of_nil in Hu.
  - simpl in *. apply elem_of_cons in Hu as [->|Hu]; [|by apply IH].
    destruct (fold_download_errors urls (download_one http acc u0)) as [l Hl].
    rewrite Herr in Hl. symmetry in Hl. apply app_eq_nil in Hl as [Hl _].
    destruct acc as [st w].
    destruct (download_one_no_error st w u0 Hl) as (f & Hf & Hex).
    exists f. split; [done|]. by apply fold_download_files.
Qed.

Lemma download_one_present (st : status) (w : world) (u f : string) :
  construct_file_name u = Some f -> is_Some (files w !! f) ->
  download_one http (st, w) u = (add_skipped f st, w).
Proof.
  intros Hf Hex. unfold download_one. rewrite truthy_construct_file_name, Hf.
  unfold path_exists. by rewrite bool_decide_eq_true_2.
Qed.

(** With every file in place, the loop skips every URL and touches nothing. *)
Lemma fold_download_all_present (urls : list string) (st : status) (w : world) :
  (forall u, u ∈ urls ->
     exists f, construct_file_name u = Some f /\ is_Some (files w !! f)) ->
  fold_left (download_one http) urls (st, w)
  = ({| downloaded := downloaded st;
        skipped := skipped st ++ derived_names urls;
        errors := errors st |}, w).
Proof.
  revert st. induction urls as [|u urls IH]; intros st Hall; cbn [fold_left].
  - unfold derived_names. simpl. rewrite app_nil_r. by destruct st.
  - destruct (Hall u) as (f & Hf & Hex); [by left|].
    rewrite (download_one_present st w u f Hf Hex).
    rewrite IH by (intros; apply Hall; by right).
    unfold derived_names. simpl. rewrite Hf. simpl.
    by rewrite <- app_assoc.
Qed.

End Download.

(** C3 (as amended).  When the first run recorded no error, a second run
    over the same list issues no request, records every URL's file name in
    [skipped] and nothing elsewhere, and leaves the set of files and the
    content of every file but the status file as the first run left them. *)
Theorem downloader_twice (http1 http2 : nat -> string -> response)
    (urls : list string) (base_url : string) (w : world) :
  errors (downloader_loop http1 urls w).1 = [] ->
  downloader_loop http2 urls (downloader http1 urls base_url w)
    = ({| downloaded := []; skipped := derived_names urls; errors := [] |},
       downloader http1 urls base_url w)
  /\ length (derived_names urls) = length urls
  /\ dom (files (downloader http2 urls base_url (downloader http1 urls base_url w)))
     = dom (files (downloader http1 urls base_url w))
  /\ (forall p, p <> status_file_name base_url ->
        files (downloader http2 urls base_url (downloader http1 urls base_url w)) !! p
        = files (downloader http1 urls base_url w) !! p)
  /\ requests (downloader http2 urls base_url (downloader http1 urls base_url w))
     = requests (downloader http1 urls base_url w).
Proof.
  intros Herr.
  assert (Hall : forall u, u ∈ urls ->
            exists f, construct_file_name u = Some f
                      /\ is_Some (files (downloader http1 urls base_url w) !! f)).
  { intros u Hu.
    destruct (fold_download_no_error http1 urls (empty_status, w) Herr u Hu)
      as (f & Hf & Hex).
    exists f. split; [done|]. unfold downloader, downloader_loop.
    destruct (fold_left _ _ _) as [st w']. simpl in *.
    rewrite lookup_insert. by case_decide. }
  assert (Hloop := fold_download_all_present http2 urls empty_status _ Hall).
  simpl in Hloop. fold (downloader_loop http2 urls (downloader http1 urls base_url w)) in Hloop.
  split; [done|]. split.
  { assert (Hsome : forall u, u ∈ urls -> is_Some (construct_file_name u)).
    { intros u Hu. destruct (Hall u Hu) as (f & -> & _). eauto. }
    unfold derived_names. clear -Hsome.
    induction urls as [|u urls IH]; [done|]. simpl.
    destruct (Hsome u) as [f ->]; [by left|]. simpl. f_equal.
    apply IH. intros; apply Hsome; by right. }
  assert (Hs : is_Some (files (downloader http1 urls base_url w)
                          !! status_file_name base_url)).
  { unfold downloader. destruct (downloader_loop http1 urls w).
    simpl. rewrite lookup_insert_eq. eauto. }
  set (w1 := downloader http1 urls base_url w) in *.
  assert (Hw2 : downloader http2 urls base_url w1
                = create_status_file
                    {| downloaded := []; skipped := derived_names urls; errors := [] |}
                    base_url w1).
  { unfold downloader. by rewrite Hloop. }
  rewrite Hw2. unfold create_status_file. simpl. repeat split.
  - rewrite dom_insert_L. apply elem_of_dom in Hs.
    apply subseteq_union_1_L. by apply singleton_subseteq_l.
  - intros p Hp. by rewrite lookup_insert_ne.
Qed.

Lemma downloader_twice_witness :
  downloader_loop http_down [url_a; url_a]
    (downloader http_up [url_a; url_a] "http://e.com" fresh_world)
  = ({| downloaded := []; skipped := derived_names [url_a; url_a]; errors := [] |},
     downloader http_up [url_a; url_a] "http://e.com" fresh_world).
Proof.
  exact (proj1 (downloader_twice http_up http_down [url_a; url_a] "http://e.com"
                  fresh_world eq_refl)).
Defined.

(** C3 as stated fails: the only URL fails in the first run and succeeds in
    the second, which therefore adds a file and records the URL in
    [downloaded], not in [skipped]. *)
Lemma downloader_twice_changes :
  files (downloader http_down [url_a] "http://e.com" fresh_world) !! "2020_a.html"
    = None
  /\ files (downloader http_up [url_a] "http://e.com"
             (downloader http_down [url_a] "http://e.com" fresh_world))
       !! "2020_a.html"
     = Some (Blob "<html>")
  /\ (downloader_loop http_up [url_a]
        (downloader http_down [url_a] "http://e.com" fresh_world)).1
     = {| downloaded := ["2020_a.html"]; skipped := []; errors := [] |}.
Proof. repeat split; vm_compute; reflexivity. Qed.

(** ** The Retry Runner on well-formed documents *)

Lemma failed_urls_of_status (st : status) :
  failed_urls_of (status_json st) = Val (JStr <$> (e_url <$> errors st)).
Proof.
  unfold failed_urls_of, status_json. simpl.
  induction (errors st) as [|e es IH]; [done|].
  csimpl in *. by rewrite IH.
Qed.

Lemma filter_entries (u : string) (es : list error_entry) :
  dyn_filterM (fun e => v ← py_getitem e "url"; Val (negb (py_eq_str v u)))
    (entry_json <$> es)
  = Val (entry_json <$> List.filter (fun e => negb (String.eqb (e_url e) u)) es).
Proof.
  induction es as [|e es IH]; [done|].
  csimpl in *. rewrite IH. csimpl. by destruct (String.eqb (e_url e) u).
Qed.

Lemma update_entries (u msg : string) (es : list error_entry) :
  dyn_mapM (fun e => v ← py_getitem e "url";
                     if py_eq_str v u then py_setitem e "error" (JStr msg) else Val e)
    (entry_json <$> es)
  = Val (entry_json <$>
           ((fun e => if String.eqb (e_url e) u
                      then {| e_url := e_url e; e_error := msg |} else e) <$> es)).
Proof.
  induction es as [|e es IH]; [done|].
  csimpl in *. destruct (String.eqb (e_url e) u); csimpl; by rewrite IH.
Qed.

Lemma record_success_status (st : status) (f u : string) :
  record_success (status_json st) f u
  = Val (status_json (remove_errors u (add_downloaded f st))).
Proof.
  unfold record_success, status_json. simpl.
  rewrite filter_entries. simpl. by rewrite fmap_app.
Qed.

Lemma record_failure_status (st : status) (u msg : string) :
  record_failure (status_json st) u msg = Val (status_json (update_errors u msg st)).
Proof.
  unfold record_failure, status_json. simpl.
  by rewrite update_entries.
Qed.

Section Retry.

Variable http : nat -> string -> response.

Lemma retry_one_status_json (u : string) (st : status) (w : world) :
  retry_one http (JStr u) (status_json st) w
  = (Returned (status_json (retry_one_status http u (st, w)).1),
     (retry_one_status http u (st, w)).2).
Proof.
  unfold retry_one, retry_one_status.
  destruct (truthy _); [|done]. destruct (path_exists _ _); [done|].
  destruct (http _ _).
  - by rewrite record_success_status.
  - by rewrite record_failure_status.
Qed.

Lemma retry_loop_status_json (us : list string) (st : status) (w : world) :
  retry_loop http (JStr <$> us) (status_json st) w
  = (Returned (status_json (retry_loop_status http us (st, w)).1),
     (retry_loop_status http us (st, w)).2).
Proof.
  revert st w. induction us as [|u us IH]; intros st w; [done|].
  cbn [fmap list_fmap retry_loop]. rewrite retry_one_status_json.
  destruct (retry_one_status http u (st, w)) as [st1 w1] eqn:E.
  cbn [fst snd]. rewrite IH. unfold retry_loop_status. cbn [fold_left]. by rewrite E.
Qed.

(** The whole retry run on a document of the form the downloader writes. *)
Lemma retry_failed_downloads_status (status_file : string) (st : status) (w : world) :
  files w !! status_file = Some (Document (status_json st)) ->
  retry_failed_downloads http status_file w
  = match errors st with
    | [] => (Returned tt, w)
    | _ :: _ =>
        (Returned tt,
         write_file status_file
           (Document (status_json
                        (retry_loop_status http (e_url <$> errors st) (st, w)).1))
           (retry_loop_status http (e_url <$> errors st) (st, w)).2)
    end.
Proof.
  intros Hfile. unfold retry_failed_downloads. rewrite Hfile, failed_urls_of_status.
  destruct (errors st) as [|e es] eqn:E; [done|].
  change (JStr <$> (e_url <$> e :: es)) with (JStr (e_url e) :: (JStr <$> (e_url <$> es))).
  change (JStr (e_url e) :: (JStr <$> (e_url <$> es)))
    with (JStr <$> (e_url <$> e :: es)) at 2.
  by rewrite retry_loop_status_json.
Qed.

End Retry.

Lemma path_exists_false (p : string) (w : world) :
  files w !! p = None -> path_exists p w = false.
Proof.
  intros H. unfold path_exists. apply bool_decide_eq_false_2.
  rewrite H. by intros [? ?].
Qed.

Lemma path_exists_true (p : string) (w : world) :
  is_Some (files w !! p) -> path_exists p w = true.
Proof. intros H. unfold path_exists. by apply bool_decide_eq_true_2. Qed.

Section RetrySteps.

Variable http : nat -> string -> response.

Lemma retry_one_status_success (u f : string) (body : content) (st : status) (w : world) :
  construct_file_name u = Some f -> files w !! f = None ->
  http (length (requests w)) u = Ok body ->
  retry_one_status http u (st, w)
  = (remove_errors u (add_downloaded f st), write_file f body (log_request u w)).
Proof.
  intros Hf Hno Hget. unfold retry_one_status.
  by rewrite truthy_construct_file_name, Hf, (path_exists_false _ _ Hno), Hget.
Qed.

Lemma retry_one_status_failure (u f msg : string) (st : status) (w : world) :
  construct_file_name u = Some f -> files w !! f = None ->
  http (length (requests w)) u = RequestException msg ->
  retry_one_status http u (st, w) = (update_errors u msg st, log_request u w).
Proof.
  intros Hf Hno Hget. unfold retry_one_status.
  by rewrite truthy_construct_file_name, Hf, (path_exists_false _ _ Hno), Hget.
Qed.

Lemma retry_one_status_skip (u f : string) (st : status) (w : world) :
  construct_file_name u = Some f -> is_Some (files w !! f) ->
  retry_one_status http u (st, w) = (st, w).
Proof.
  intros Hf Hex. unfold retry_one_status.
  by rewrite truthy_construct_file_name, Hf, (path_exists_true _ _ Hex).
Qed.

Lemma retry_one_status_no_name (u : string) (st : status) (w : world) :
  construct_file_name u = None -> retry_one_status http u (st, w) = (st, w).
Proof. intros Hf. unfold retry_one_status. by rewrite Hf. Qed.

End RetrySteps.

(** C8 (as amended).  The retry run ends in [exit(1)], with nothing changed
    and nothing requested, whenever the status file does not exist or its
    content is not a JSON text. *)
Theorem retry_failed_downloads_fatal (http : nat -> string -> response)
    (status_file : string) (w : world) :
  (forall j, files w !! status_file <> Some (Document j)) ->
  retry_failed_downloads http status_file w = (Exited 1, w).
Proof.
  intros H. unfold retry_failed_downloads.
  destruct (files w !! status_file) as [[b|j]|] eqn:E; [done| |done].
  by destruct (H j).
Qed.

Lemma retry_failed_downloads_fatal_witness :
  retry_failed_downloads http_up "status.json"
    {| files := {[ "status.json" := Blob "not json" ]}; requests := [] |}
  = (Exited 1, {| files := {[ "status.json" := Blob "not json" ]}; requests := [] |}).
Proof.
  apply retry_failed_downloads_fatal. intros j. cbn [files].
  rewrite lookup_singleton_eq. discriminate.
Defined.

(** C8 as stated fails: the document [{}] has none of the three keys, and
    the retry run returns normally on it. *)
Lemma retry_failed_downloads_accepts_empty_object :
  retry_failed_downloads http_up "status.json"
    {| files := {[ "status.json" := Document (JObj []) ]}; requests := [] |}
  = (Returned tt,
     {| files := {[ "status.json" := Document (JObj []) ]}; requests := [] |}).
Proof. vm_compute. reflexivity. Qed.

(** C9.  On a status document whose ["errors"] list is empty the retry run
    returns normally and leaves the world as it found it: no request is
    issued and no file, the status file included, is written. *)
Theorem retry_failed_downloads_no_errors (http : nat -> string -> response)
    (status_file : string) (kv : list (string * json)) (w : world) :
  files w !! status_file = Some (Document (JObj kv)) ->
  dict_get "errors" kv = Some (JArr []) ->
  retry_failed_downloads http status_file w = (Returned tt, w).
Proof.
  intros Hfile Herr. unfold retry_failed_downloads, failed_urls_of.
  rewrite Hfile. simpl. by rewrite Herr.
Qed.

Lemma retry_failed_downloads_no_errors_witness :
  retry_failed_downloads http_up "status.json"
    {| files := {[ "status.json" :=
                     Document (status_json {| downloaded := ["2020_a.html"];
                                              skipped := []; errors := [] |}) ]};
       requests := [] |}
  = (Returned tt,
     {| files := {[ "status.json" :=
                      Document (status_json {| downloaded := ["2020_a.html"];
                                               skipped := []; errors := [] |}) ]};
        requests := [] |}).
Proof.
  eapply retry_failed_downloads_no_errors.
  - cbn [files]. apply lookup_singleton_eq.
  - reflexivity.
Defined.




(** ** What a retry run keeps *)

Lemma remove_errors_urls (u v : string) (st : status) :
  v ∈ (e_url <$> errors (remove_errors u st)) <-> v ∈ (e_url <$> errors st) /\ v <> u.
Proof.
  unfold remove_errors. cbn [errors].
  induction (errors st) as [|e es IH]; csimpl.
  - split; [by intros ?%elem_of_nil|by intros [?%elem_of_nil _]].
  - destruct (String.eqb_spec (e_url e) u) as [Heq|Hne]; csimpl.
    + rewrite IH, elem_of_cons. intuition congruence.
    + rewrite !elem_of_cons, IH. intuition congruence.
Qed.

Lemma remove_errors_elem (u : string) (e : error_entry) (st : status) :
  e ∈ errors st -> e_url e <> u -> e ∈ errors (remove_errors u st).
Proof.
  unfold remove_errors. cbn [errors]. intros He Hne.
  apply list_elem_of_In, filter_In. split; [by apply list_elem_of_In|].
  by apply negb_true_iff, String.eqb_neq.
Qed.

Lemma remove_errors_sublist (u : string) (st : status) :
  (e_url <$> errors (remove_errors u st)) `sublist_of` (e_url <$> errors st).
Proof.
  unfold remove_errors. cbn [errors].
  induction (errors st) as [|e es IH]; csimpl; [done|].
  destruct (negb _); csimpl; by constructor.
Qed.

Lemma update_errors_urls (u msg : string) (st : status) :
  e_url <$> errors (update_errors u msg st) = e_url <$> errors st.
Proof.
  unfold update_errors. cbn [errors].
  induction (errors st) as [|e es IH]; csimpl; [done|].
  rewrite IH. by destruct (String.eqb _ _).
Qed.

Lemma update_errors_elem (u msg : string) (e : error_entry) (st : status) :
  e ∈ errors st -> e_url e <> u -> e ∈ errors (update_errors u msg st).
Proof.
  unfold update_errors. cbn [errors]. intros He Hne.
  apply list_elem_of_fmap. exists e. split; [|done].
  by apply String.eqb_neq in Hne as ->.
Qed.

Section RetryKeeps.

Variable http : nat -> string -> response.

(** The cases of one retry step. *)
Lemma retry_one_status_cases (u : string) (st : status) (w : world) :
  retry_one_status http u (st, w) = (st, w)
  \/ (exists f body, construct_file_name u = Some f /\ files w !! f = None
        /\ retry_one_status http u (st, w)
           = (remove_errors u (add_downloaded f st),
              write_file f body (log_request u w)))
  \/ (exists f msg, construct_file_name u = Some f /\ files w !! f = None
        /\ retry_one_status http u (st, w) = (update_errors u msg st, log_request u w)).
Proof.
  destruct (construct_file_name u) as [f|] eqn:Hf;
    [|left; by apply retry_one_status_no_name].
  destruct (files w !! f) as [c|] eqn:Hex;
    [left; apply (retry_one_status_skip http u f); by eauto|].
  destruct (http (length (requests w)) u) as [body|msg] eqn:Hget.
  - right; left. exists f, body. by rewrite (retry_one_status_success http u f body).
  - right; right. exists f, msg. by rewrite (retry_one_status_failure http u f msg).
Qed.

Lemma retry_one_existing (u : string) (st : status) (w : world)
    (e : error_entry) (f : string) :
  e ∈ errors st -> construct_file_name (e_url e) = Some f -> is_Some (files w !! f) ->
  skipped (retry_one_status http u (st, w)).1 = skipped st
  /\ e ∈ errors (retry_one_status http u (st, w)).1
  /\ is_Some (files (retry_one_status http u (st, w)).2 !! f)
  /\ exists l, downloaded (retry_one_status http u (st, w)).1 = downloaded st ++ l
               /\ f ∉ l.
Proof.
  intros He Hf Hex.
  destruct (retry_one_status_cases u st w)
    as [->|[(g & body & Hg & Hno & ->)|(g & msg & Hg & Hno & ->)]]; cbn [fst snd].
  - split_and!; try done. exists []. split; [by rewrite app_nil_r|apply not_elem_of_nil].
  - assert (Hgf : g <> f) by (intros ->; rewrite Hno in Hex; by destruct Hex).
    assert (Hu : e_url e <> u) by congruence.
    split_and!; [done|by apply remove_errors_elem| |].
    + cbn [write_file log_request files]. by rewrite lookup_insert_ne.
    + exists [g]. split; [done|]. by intros ->%list_elem_of_singleton.
  - assert (Hu : e_url e <> u).
    { intros <-. rewrite Hf in Hg. injection Hg as ->. rewrite Hno in Hex. by destruct Hex. }
    split_and!; [done|by apply update_errors_elem|done|].
    exists []. split; [by rewrite app_nil_r|apply not_elem_of_nil].
Qed.

Lemma retry_loop_existing (us : list string) (st : status) (w : world)
    (e : error_entry) (f : string) :
  e ∈ errors st -> construct_file_name (e_url e) = Some f -> is_Some (files w !! f) ->
  skipped (retry_loop_status http us (st, w)).1 = skipped st
  /\ e ∈ errors (retry_loop_status http us (st, w)).1
  /\ exists l, downloaded (retry_loop_status http us (st, w)).1 = downloaded st ++ l
               /\ f ∉ l.
Proof.
  revert st w. induction us as [|u us IH]; intros st w He Hf Hex.
  - split_and!; try done. exists []. split; [by rewrite app_nil_r|apply not_elem_of_nil].
  - unfold retry_loop_status. cbn [fold_left].
    destruct (retry_one_existing u st w e f He Hf Hex) as (Hs & He1 & Hex1 & l1 & Hd & Hl1).
    destruct (retry_one_status http u (st, w)) as [st1 w1]. cbn [fst snd] in *.
    destruct (IH st1 w1 He1 Hf Hex1) as (Hs2 & He2 & l2 & Hd2 & Hl2).
    unfold retry_loop_status in *.
    split_and!; [congruence|done|].
    exists (l1 ++ l2). split; [by rewrite Hd2, Hd, app_assoc|].
    rewrite elem_of_app. tauto.
Qed.

End RetryKeeps.

(** C10.  When the file derived for an errored URL is already in the working
    directory, the retry step for that URL changes neither the document nor
    the world, and the whole run leaves [skipped] as it was, keeps the entry
    in [errors] with its old message, and appends the file name to
    [downloaded] at no point. *)
Theorem retry_existing_file (http : nat -> string -> response)
    (status_file : string) (st : status) (w : world)
    (e : error_entry) (f : string) :
  files w !! status_file = Some (Document (status_json st)) ->
  e ∈ errors st ->
  construct_file_name (e_url e) = Some f ->
  is_Some (files w !! f) ->
  (forall sd, retry_one http (JStr (e_url e)) sd w = (Returned sd, w))
  /\ exists st' w',
       retry_failed_downloads http status_file w = (Returned tt, w')
       /\ files w' !! status_file = Some (Document (status_json st'))
       /\ skipped st' = skipped st
       /\ e ∈ errors st'
       /\ exists l, downloaded st' = downloaded st ++ l /\ f ∉ l.
Proof.
  intros Hfile He Hf Hex. split.
  - intros sd. unfold retry_one.
    by rewrite truthy_construct_file_name, Hf, (path_exists_true _ _ Hex).
  - rewrite (retry_failed_downloads_status http status_file st w Hfile).
    destruct (errors st) as [|e0 es] eqn:Herr; [by apply elem_of_nil in He|].
    rewrite <- Herr in *.
    destruct (retry_loop_existing http (e_url <$> errors st) st w e f He Hf Hex)
      as (Hs & He' & Hd).
    eexists _, _. split; [done|]. split; [|done].
    cbn [write_file files]. apply lookup_insert_eq.
Qed.

Lemma retry_existing_file_witness :
  (forall sd, retry_one http_up (JStr url_a) sd two_errors_world_a
              = (Returned sd, two_errors_world_a))
  /\ exists st' w',
       retry_failed_downloads http_up "status.json" two_errors_world_a
         = (Returned tt, w')
       /\ files w' !! "status.json" = Some (Document (status_json st'))
       /\ skipped st' = skipped two_errors
       /\ {| e_url := url_a; e_error := "old a" |} ∈ errors st'
       /\ exists l, downloaded st' = downloaded two_errors ++ l /\ "2020_a.html" ∉ l.
Proof.
  apply (retry_existing_file http_up "status.json" two_errors two_errors_world_a
           {| e_url := url_a; e_error := "old a" |} "2020_a.html").
  - reflexivity.
  - apply list_elem_of_here.
  - reflexivity.
  - exists (Blob "<html>"). reflexivity.
Defined.

(** ** At most one list per URL *)

Lemma exclusive_lists_representing (st : status) (u : string) :
  exclusive st -> lists_representing st u <= 1.
Proof.
  intros H. unfold lists_representing, in_downloaded, in_skipped, in_errors.
  destruct (construct_file_name u) as [f|] eqn:E.
  - destruct (H u f E) as [H1 H2].
    repeat case_bool_decide; simpl; try lia; exfalso; tauto.
  - case_bool_decide; simpl; lia.
Qed.

Lemma derived_names_snoc (urls : list string) (x : string) :
  derived_names (urls ++ [x])
  = derived_names urls ++ match construct_file_name x with Some g => [g] | None => [] end.
Proof. unfold derived_names. rewrite omap_app. simpl. by destruct (construct_file_name x). Qed.

Lemma derived_names_elem (urls : list string) (u f : string) :
  u ∈ urls -> construct_file_name u = Some f -> f ∈ derived_names urls.
Proof. intros Hu Hf. apply list_elem_of_omap. eauto. Qed.

Ltac elem_of_tac :=
  intros; repeat (rewrite ?elem_of_app, ?list_elem_of_singleton in * );
  intuition (subst; eauto).

Section DownloadInv.

Variable http : nat -> string -> response.

Lemma download_one_cases (x : string) (st : status) (w : world) :
  (construct_file_name x = None
   /\ (download_one http (st, w) x).1 = add_error x "Invalid file name" st)
  \/ exists g, construct_file_name x = Some g
       /\ ((download_one http (st, w) x).1 = add_skipped g st
           \/ (download_one http (st, w) x).1 = add_downloaded g st
           \/ exists msg, (download_one http (st, w) x).1 = add_error x msg st).
Proof.
  unfold download_one. rewrite truthy_construct_file_name.
  destruct (construct_file_name x) as [g|]; [|by left].
  right. exists g. split; [done|].
  destruct (path_exists g w); [by left|].
  destruct (http _ _); [right; by left|right; right; eauto].
Qed.

Lemma download_one_inv (urls : list string) (x : string) (st : status) (w : world) :
  NoDup (derived_names (urls ++ [x])) ->
  (forall f, f ∈ downloaded st ++ skipped st -> f ∈ derived_names urls) ->
  (forall u, u ∈ (e_url <$> errors st) -> u ∈ urls) ->
  exclusive st -> errors_distinct st ->
  (forall f, f ∈ downloaded (download_one http (st, w) x).1
               ++ skipped (download_one http (st, w) x).1 ->
     f ∈ derived_names (urls ++ [x]))
  /\ (forall u, u ∈ (e_url <$> errors (download_one http (st, w) x).1) -> u ∈ urls ++ [x])
  /\ exclusive (download_one http (st, w) x).1
  /\ errors_distinct (download_one http (st, w) x).1.
Proof.
  intros Hnd Hnames Herrs Hex Hdist.
  rewrite derived_names_snoc in *.
  assert (Hfresh : forall g, construct_file_name x = Some g -> g ∉ derived_names urls).
  { intros g Hg. rewrite Hg in Hnd. apply NoDup_app in Hnd as (_ & Hd & _).
    intros Hin. apply (Hd g Hin). by left. }
  assert (Hen : forall u f, u ∈ (e_url <$> errors st) -> construct_file_name u = Some f ->
                            f ∈ derived_names urls).
  { intros u f Hu Hf. eapply derived_names_elem; eauto. }
  assert (Hdn : forall f, f ∈ downloaded st -> f ∈ derived_names urls)
    by (intros; apply Hnames, elem_of_app; auto).
  assert (Hsn : forall f, f ∈ skipped st -> f ∈ derived_names urls)
    by (intros; apply Hnames, elem_of_app; auto).
  clear Hnames.
  destruct (download_one_cases x st w) as [[Hx Hst]|(g & Hx & Hst)]; rewrite Hx in *.
  - rewrite Hst. clear Hst Hfresh Hnd.
    unfold add_error, exclusive, errors_distinct in *.
    cbn [downloaded skipped errors] in *. rewrite app_nil_r.
    split_and!; try setoid_rewrite fmap_app; csimpl.
    + elem_of_tac.
    + elem_of_tac.
    + intros u f Hf. destruct (Hex u f Hf) as [H1 H2]. split; [done|].
      intros [Hu|Hu%list_elem_of_singleton]%elem_of_app; [by apply H2|congruence].
    + intros u u' f [Hu|Hu%list_elem_of_singleton]%elem_of_app
        [Hu'|Hu'%list_elem_of_singleton]%elem_of_app; try congruence.
      by apply (Hdist u u' f).
  - specialize (Hfresh g eq_refl). clear Hnd.
    destruct Hst as [->|[->|[msg ->]]];
      unfold add_error, add_skipped, add_downloaded, exclusive, errors_distinct in *;
      cbn [downloaded skipped errors] in *.
    + split_and!.
      * elem_of_tac.
      * elem_of_tac.
      * intros u f Hf. destruct (Hex u f Hf) as [H1 H2].
        specialize (Hen u f). elem_of_tac.
      * done.
    + split_and!.
      * elem_of_tac.
      * elem_of_tac.
      * intros u f Hf. destruct (Hex u f Hf) as [H1 H2].
        specialize (Hen u f). elem_of_tac.
      * done.
    + split_and!; try setoid_rewrite fmap_app; csimpl.
      * elem_of_tac.
      * elem_of_tac.
      * intros u f Hf. destruct (Hex u f Hf) as [H1 H2]. split; [done|].
        intros [Hu|Hu%list_elem_of_singleton]%elem_of_app; [by apply H2|].
        subst u. assert (f = g) as -> by congruence. elem_of_tac.
      * intros u u' f [Hu|Hu%list_elem_of_singleton]%elem_of_app
          [Hu'|Hu'%list_elem_of_singleton]%elem_of_app Hf Hf'; subst.
        -- by apply (Hdist u u' f).
        -- exfalso. apply Hfresh. assert (f = g) as <- by congruence. eauto.
        -- exfalso. apply Hfresh. assert (f = g) as <- by congruence. eauto.
        -- done.
Qed.

Lemma downloader_loop_inv (urls : list string) (w : world) :
  NoDup (derived_names urls) ->
  (forall f, f ∈ downloaded (downloader_loop http urls w).1
               ++ skipped (downloader_loop http urls w).1 ->
     f ∈ derived_names urls)
  /\ (forall u, u ∈ (e_url <$> errors (downloader_loop http urls w).1) -> u ∈ urls)
  /\ exclusive (downloader_loop http urls w).1
  /\ errors_distinct (downloader_loop http urls w).1.
Proof.
  induction urls as [|x urls IH] using rev_ind; intros Hnd.
  - split_and!; try (by intros ? ?%elem_of_nil).
    + intros u f _. split; by intros ?%elem_of_nil.
    + by intros u u' f ?%elem_of_nil.
  - unfold downloader_loop in *. rewrite fold_left_app. cbn [fold_left].
    destruct (fold_left (download_one http) urls (empty_status, w)) as [st w'].
    cbn [fst] in IH.
    assert (Hnd' : NoDup (derived_names urls)).
    { rewrite derived_names_snoc in Hnd. by apply NoDup_app in Hnd as (? & _ & _). }
    destruct (IH Hnd') as (H1 & H2 & H3 & H4).
    by apply download_one_inv.
Qed.

End DownloadInv.

Lemma derived_names_take (n : nat) (urls : list string) :
  NoDup (derived_names urls) -> NoDup (derived_names (take n urls)).
Proof.
  intros H. rewrite <- (take_drop n urls) in H. unfold derived_names in *.
  rewrite omap_app in H. by apply NoDup_app in H as (? & _ & _).
Qed.

Section RetryInv.

Variable http : nat -> string -> response.

Lemma retry_one_inv (u : string) (todo : list string) (st : status) (w : world) :
  exclusive st -> errors_distinct st ->
  (forall v f, v ∈ u :: todo -> construct_file_name v = Some f ->
     v ∈ (e_url <$> errors st) \/ is_Some (files w !! f)) ->
  exclusive (retry_one_status http u (st, w)).1
  /\ errors_distinct (retry_one_status http u (st, w)).1
  /\ (forall v f, v ∈ todo -> construct_file_name v = Some f ->
        v ∈ (e_url <$> errors (retry_one_status http u (st, w)).1)
        \/ is_Some (files (retry_one_status http u (st, w)).2 !! f))
  /\ skipped (retry_one_status http u (st, w)).1 = skipped st
  /\ downloaded st `prefix_of` downloaded (retry_one_status http u (st, w)).1
  /\ (e_url <$> errors (retry_one_status http u (st, w)).1)
       `sublist_of` (e_url <$> errors st).
Proof.
  intros Hex Hdist Htodo.
  destruct (retry_one_status_cases http u st w)
    as [->|[(g & body & Hg & Hno & ->)|(g & msg & Hg & Hno & ->)]]; cbn [fst snd].
  - split_and!; try done. intros v f Hv. apply Htodo. by right.
  - assert (Hu : u ∈ (e_url <$> errors st)).
    { destruct (Htodo u g) as [?|[c Hc]]; [by left|done|done|congruence]. }
    destruct (Hex u g Hg) as [_ Hug]. destruct (Hug Hu) as [Hgd Hgs].
    split_and!.
    + intros v f Hf. destruct (Hex v f Hf) as [H1 H2].
      cbn [remove_errors add_downloaded downloaded skipped]. split.
      * intros [Hd | ->%list_elem_of_singleton]%elem_of_app; [by apply H1|done].
      * intros [Hv Hvu]%remove_errors_urls. cbn [add_downloaded errors] in Hv.
        destruct (H2 Hv) as [Hfd Hfs]. split; [|done].
        intros [Hd | ->%list_elem_of_singleton]%elem_of_app; [done|].
        apply Hvu. by apply (Hdist v u g).
    + intros v v' f [Hv _]%remove_errors_urls [Hv' _]%remove_errors_urls.
      by apply Hdist.
    + intros v f Hv Hf. destruct (decide (v = u)) as [->|Hvu].
      * right. cbn [write_file log_request files].
        assert (f = g) as -> by congruence. rewrite lookup_insert_eq. eauto.
      * destruct (Htodo v f) as [Hin|Hfile]; [by right|done| |].
        -- left. by apply remove_errors_urls.
        -- right. cbn [write_file log_request files].
           rewrite lookup_insert. by case_decide.
    + done.
    + by apply prefix_app_r.
    + apply (remove_errors_sublist u (add_downloaded g st)).
  - split_and!; rewrite ?update_errors_urls; try done.
    + intros v f Hf. rewrite update_errors_urls. by apply Hex.
    + intros v v' f. rewrite update_errors_urls. by apply Hdist.
    + intros v f Hv Hf. apply Htodo; [by right|done].
Qed.

Lemma retry_loop_inv (todo : list string) (st : status) (w : world) :
  exclusive st -> errors_distinct st ->
  (forall v f, v ∈ todo -> construct_file_name v = Some f ->
     v ∈ (e_url <$> errors st) \/ is_Some (files w !! f)) ->
  exclusive (retry_loop_status http todo (st, w)).1
  /\ skipped (retry_loop_status http todo (st, w)).1 = skipped st
  /\ downloaded st `prefix_of` downloaded (retry_loop_status http todo (st, w)).1
  /\ (e_url <$> errors (retry_loop_status http todo (st, w)).1)
       `sublist_of` (e_url <$> errors st).
Proof.
  revert st w. induction todo as [|u todo IH]; intros st w Hex Hdist Htodo.
  - by split_and!.
  - unfold retry_loop_status. cbn [fold_left].
    destruct (retry_one_inv u todo st w Hex Hdist Htodo)
      as (Hex1 & Hdist1 & Htodo1 & Hs1 & Hd1 & He1).
    destruct (retry_one_status http u (st, w)) as [st1 w1]. cbn [fst snd] in *.
    destruct (IH st1 w1 Hex1 Hdist1 Htodo1) as (Hex2 & Hs2 & Hd2 & He2).
    unfold retry_loop_status in *.
    split_and!; [done|congruence|by etrans|by etrans].
Qed.

End RetryInv.

(** With every write succeeding: when no two entries of the URL list derive
    the same file name, each URL is represented in at most one list after
    every prefix of the download loop, and the retry loop over the resulting
    document keeps this after every prefix of its own. *)
Lemma one_list_per_url_total (http1 http2 : nat -> string -> response)
    (urls : list string) (w w1 : world) (n m : nat) (u : string) :
  NoDup (derived_names urls) ->
  lists_representing (downloader_loop http1 (take n urls) w).1 u <= 1
  /\ exists st2 w2,
       retry_loop http2
         (JStr <$> take m (e_url <$> errors (downloader_loop http1 urls w).1))
         (status_json (downloader_loop http1 urls w).1) w1
       = (Returned (status_json st2), w2)
       /\ lists_representing st2 u <= 1
       /\ skipped st2 = skipped (downloader_loop http1 urls w).1
       /\ downloaded (downloader_loop http1 urls w).1 `prefix_of` downloaded st2
       /\ (e_url <$> errors st2)
            `sublist_of` (e_url <$> errors (downloader_loop http1 urls w).1).
Proof.
  intros Hnd. split.
  - apply exclusive_lists_representing.
    by apply (downloader_loop_inv http1 (take n urls) w), derived_names_take.
  - destruct (downloader_loop_inv http1 urls w Hnd) as (_ & _ & Hex & Hdist).
    set (st1 := (downloader_loop http1 urls w).1) in *.
    rewrite retry_loop_status_json.
    destruct (retry_loop_inv http2 (take m (e_url <$> errors st1)) st1 w1 Hex Hdist)
      as (Hex2 & Hs & Hd & He).
    { intros v f Hv _. left. revert Hv. apply subseteq_take. }
    eexists _, _. split; [done|]. split_and!; try done.
    by apply exclusive_lists_representing.
Qed.


(** C5 as stated fails: a URL listed twice is downloaded the first time and
    skipped the second, so its file name ends up in two lists. *)
Lemma url_twice_in_two_lists :
  (downloader_loop http_up [url_a; url_a] fresh_world).1
  = {| downloaded := ["2020_a.html"]; skipped := ["2020_a.html"]; errors := [] |}
  /\ lists_representing (downloader_loop http_up [url_a; url_a] fresh_world).1 url_a = 2.
Proof. split; vm_compute; reflexivity. Qed.

(** * Further properties of the scripts *)

(** ** More on strings *)

Lemma length_drop_s (n : nat) (s : string) :
  String.length (PyStr.drop n s) = String.length s - n.
Proof.
  revert s. induction n as [|n IH]; intros [|c s]; simpl; [done|lia|done|apply IH].
Qed.

Lemma drop_app_le (n : nat) (a b : string) :
  n <= String.length a -> PyStr.drop n (a +:+ b) = PyStr.drop n a +:+ b.
Proof.
  revert a. induction n as [|n IH]; intros a Hn; [done|].
  destruct a as [|c a]; simpl in Hn; [lia|].
  rewrite app_cons. simpl. apply IH. lia.
Qed.

Lemma take_app_le (n : nat) (a b : string) :
  n <= String.length a -> PyStr.take n (a +:+ b) = PyStr.take n a.
Proof.
  revert a. induction n as [|n IH]; intros a Hn; [done|].
  destruct a as [|c a]; simpl in Hn; [lia|].
  rewrite app_cons. simpl. rewrite IH; [done|lia].
Qed.

Lemma startswith_app_le (p a b : string) :
  String.length p <= String.length a ->
  PyStr.startswith p (a +:+ b) = PyStr.startswith p a.
Proof.
  revert a. induction p as [|x p IH]; intros a Hp; [done|].
  destruct a as [|c a]; simpl in Hp; [lia|].
  rewrite app_cons. simpl. rewrite IH; [done|lia].
Qed.

(** An occurrence found in [a] is the one found in [a +:+ b]. *)
Lemma index_app_l (sub a b : string) (i : nat) :
  PyStr.index sub a = Some i -> PyStr.index sub (a +:+ b) = Some i.
Proof.
  revert i. induction a as [|c a IH]; intros i Hi.
  - simpl in Hi. destruct (PyStr.startswith sub "") eqn:E; [|done].
    injection Hi as <-. destruct sub; [|done]. by destruct b.
  - assert (Hlen : String.length sub <= String.length (String c a)).
    { apply index_Some in Hi as (x & y & -> & _).
      rewrite !length_app_s. lia. }
    rewrite app_cons. simpl in *. rewrite <- app_cons, startswith_app_le by done.
    destruct (PyStr.startswith sub (String c a)); [done|].
    destruct (PyStr.index sub a) as [j|]; [|done].
    by rewrite (IH j eq_refl).
Qed.

(** With no occurrence starting inside [a], the search moves on to [b]. *)
Lemma index_app_r (sub a b : string) :
  (forall k, k < String.length a ->
     PyStr.startswith sub (PyStr.drop k (a +:+ b)) = false) ->
  PyStr.index sub (a +:+ b) = (fun j => String.length a + j) <$> PyStr.index sub b.
Proof.
  induction a as [|c a IH]; intros Hno.
  - rewrite app_empty_l. by destruct (PyStr.index sub b).
  - assert (H0 := Hno 0 ltac:(simpl; lia)). rewrite app_cons in *.
    simpl in *. rewrite H0, IH.
    + by destruct (PyStr.index sub b).
    + intros k Hk. apply (Hno (S k)). simpl. lia.
Qed.

Lemma before_app (c : ascii) (a q : string) :
  PyStr.before c (a +:+ String c q) = PyStr.before c a.
Proof.
  induction a as [|x a IH].
  - rewrite app_empty_l. simpl. by rewrite Ascii.eqb_refl.
  - rewrite app_cons. simpl. by rewrite IH.
Qed.

Lemma contains_index (sub s : string) (a b : string) :
  s = a +:+ sub +:+ b -> is_Some (PyStr.index sub s).
Proof. intros ->. apply index_contains. by exists a, b. Qed.

(** ** More on the Filename Deriver *)

Lemma drop_app_add (n : nat) (a b : string) :
  PyStr.drop (String.length a + n) (a +:+ b) = PyStr.drop n b.
Proof. induction a as [|c a IH]; [done|]. by rewrite app_cons. Qed.

Lemma allowed_char_not_slash (c : ascii) :
  allowed_char c = true -> Ascii.eqb c "/" = false.
Proof. by destruct c as [[] [] [] [] [] [] [] []]. Qed.

Lemma all_allowed_no_slash (s : string) : all_allowed s = true -> no_slash s = true.
Proof.
  unfold all_allowed, no_slash. induction s as [|c s IH]; [done|]. simpl.
  intros [Hc Hs]%andb_true_iff. by rewrite (allowed_char_not_slash c Hc), IH.
Qed.

(** No ['if_/'] starts inside a timestamp that is free of ['/']. *)
Lemma no_marker_inside (t o : string) (k : nat) :
  no_slash t = true -> k < String.length t ->
  PyStr.startswith "if_/" (PyStr.drop k (t +:+ "if_/" +:+ o)) = false.
Proof.
  revert k. induction t as [|c t IH]; intros k Hns Hk; [simpl in Hk; lia|].
  unfold no_slash in *. cbn [PyStr.forallb] in Hns.
  apply andb_true_iff in Hns as [Hc Hns].
  destruct k as [|k].
  - clear IH Hk Hc. cbn [PyStr.drop]. rewrite app_cons. cbn [PyStr.startswith].
    destruct (Ascii.eqb "i" c); [cbn [andb]|done].
    destruct t as [|c1 t]; [reflexivity|].
    rewrite app_cons. cbn [PyStr.startswith].
    destruct (Ascii.eqb "f" c1); [cbn [andb]|done].
    destruct t as [|c2 t]; [reflexivity|].
    rewrite app_cons. cbn [PyStr.startswith].
    destruct (Ascii.eqb "_" c2); [cbn [andb]|done].
    destruct t as [|c3 t]; [reflexivity|].
    rewrite app_cons. cbn [PyStr.startswith PyStr.forallb] in *.
    apply andb_true_iff in Hns as [_ Hns]. apply andb_true_iff in Hns as [_ Hns].
    apply andb_true_iff in Hns as [Hc3 _]. apply negb_true_iff in Hc3.
    rewrite Ascii.eqb_sym in Hc3. by rewrite Hc3.
  - rewrite app_cons. cbn [PyStr.drop]. apply IH; [done|]. simpl in Hk. lia.
Qed.

Lemma index_here (sub b : string) : PyStr.index sub (sub +:+ b) = Some 0.
Proof.
  assert (H := startswith_app sub b).
  destruct (sub +:+ b); simpl; by rewrite H.
Qed.

Lemma snapshot_url_index_web (x : string) :
  PyStr.index "/web/" ("https://web.archive.org/web/" +:+ x) = Some 23.
Proof. by apply index_app_l. Qed.

Lemma snapshot_url_index_if (t o : string) :
  no_slash t = true ->
  PyStr.index "if_/" ("https://web.archive.org/web/" +:+ t +:+ "if_/" +:+ o)
  = Some (28 + String.length t).
Proof.
  intros Hns.
  rewrite <- (app_assoc_s "https://web.archive.org/web/" t).
  rewrite index_app_r.
  - rewrite index_here, length_app_s. cbn [fmap option_fmap option_map].
    f_equal. simpl. lia.
  - intros k Hk. rewrite length_app_s in Hk.
    rewrite app_assoc_s.
    destruct (decide (k < 28)) as [Hlt|Hge].
    + clear Hk. do 28 (destruct k as [|k]; [reflexivity|]). simpl in Hlt. lia.
    + replace k with (String.length "https://web.archive.org/web/" + (k - 28))
        by (simpl; lia).
      rewrite drop_app_add. apply no_marker_inside; [done|]. simpl in Hk. lia.
Qed.

Lemma snapshot_url_name (t o : string) :
  no_slash t = true ->
  construct_file_name ("https://web.archive.org/web/" +:+ t +:+ "if_/" +:+ o)
  = Some (t +:+ "_" +:+ sanitize (PyStr.basename (PyStr.before "?" o))).
Proof.
  intros Hns. unfold construct_file_name.
  rewrite snapshot_url_index_web, snapshot_url_index_if by done.
  do 3 f_equal.
  - unfold PyStr.slice.
    replace (28 + String.length t - (23 + 5)) with (String.length t) by lia.
    change (23 + 5) with (String.length "https://web.archive.org/web/").
    by rewrite drop_app_length, take_app_length.
  - rewrite <- (app_assoc_s "https://web.archive.org/web/" t), <- (app_assoc_s _ "if_/").
    replace (28 + String.length t + 4)
      with (String.length (("https://web.archive.org/web/" +:+ t) +:+ "if_/"))
      by (rewrite !length_app_s; simpl; lia).
    by rewrite drop_app_length.
Qed.

Lemma snapshot_url_named (i : list string) :
  is_Some (construct_file_name (snapshot_url i)).
Proof.
  unfold construct_file_name, snapshot_url.
  rewrite snapshot_url_index_web.
  assert (Hif : is_Some (PyStr.index "if_/"
            ("https://web.archive.org/web/" +:+ nth 0 i "" +:+ "if_/" +:+ nth 1 i ""))).
  { apply (contains_index _ _ ("https://web.archive.org/web/" +:+ nth 0 i "")
             (nth 1 i "")). by rewrite app_assoc_s. }
  destruct Hif as [j ->]. eauto.
Qed.

(** X1.  Every snapshot URL either lookup builds derives a file name, so a
    run fed by the lookup never takes the "Invalid file name" branch. *)
Theorem lookup_urls_named (obj : list (list string)) :
  Forall (fun u => is_Some (construct_file_name u)) (Downloader.url_list obj)
  /\ Forall (fun u => is_Some (construct_file_name u)) (Gather.url_list obj).
Proof.
  unfold Downloader.url_list, Gather.url_list.
  split; apply Forall_fmap, Forall_forall; intros i _; apply snapshot_url_named.
Qed.

(** X2.  For a row whose timestamp holds no ['/'], the snapshot URL the
    lookup builds derives the timestamp, an underscore and the sanitized last
    segment of the original URL up to its first ['?']; the name is free of
    characters outside [[a-zA-Z0-9_.-]] exactly when the timestamp is. *)
Theorem snapshot_filename (t o : string) (more : list string) :
  no_slash t = true ->
  construct_file_name (snapshot_url (t :: o :: more))
  = Some (t +:+ "_" +:+ sanitize (PyStr.basename (PyStr.before "?" o)))
  /\ all_allowed (t +:+ "_" +:+ sanitize (PyStr.basename (PyStr.before "?" o)))
     = all_allowed t.
Proof.
  intros Hns. split.
  - by apply snapshot_url_name.
  - rewrite !all_allowed_app, all_allowed_sanitize.
    change (all_allowed "_") with true. by rewrite !andb_true_r.
Qed.

Lemma snapshot_filename_witness :
  construct_file_name (snapshot_url ["20200101000000"; "http://e.com/a b.txt?x=1"])
  = Some ("20200101000000" +:+ "_" +:+
          sanitize (PyStr.basename (PyStr.before "?" "http://e.com/a b.txt?x=1")))
  /\ all_allowed ("20200101000000" +:+ "_" +:+
       sanitize (PyStr.basename (PyStr.before "?" "http://e.com/a b.txt?x=1")))
     = all_allowed "20200101000000".
Proof. exact (snapshot_filename "20200101000000" "http://e.com/a b.txt?x=1" [] eq_refl). Defined.

Lemma rfind_succ_app (c : ascii) (p : string) :
  PyStr.rfind_succ c (p +:+ String c "") = S (String.length p).
Proof.
  induction p as [|a p IH].
  - rewrite app_empty_l. simpl. by rewrite Ascii.eqb_refl.
  - rewrite app_cons. simpl. by rewrite IH.
Qed.

Lemma drop_length (s : string) : PyStr.drop (String.length s) s = "".
Proof. by induction s. Qed.

Lemma basename_trailing_slash (p : string) : PyStr.basename (p +:+ "/") = "".
Proof.
  unfold PyStr.basename. rewrite rfind_succ_app.
  replace (S (String.length p)) with (String.length (p +:+ "/"))
    by (rewrite length_app_s; simpl; lia).
  apply drop_length.
Qed.

(** X3.  When the original URL, up to its first ['?'], ends in ['/'], the
    derived name is the timestamp followed by an underscore and nothing
    else. *)
Theorem snapshot_filename_trailing_slash (t o p : string) (more : list string) :
  no_slash t = true ->
  PyStr.before "?" o = p +:+ "/" ->
  construct_file_name (snapshot_url (t :: o :: more)) = Some (t +:+ "_").
Proof.
  intros Hns Ho. unfold snapshot_url. cbn [nth].
  by rewrite snapshot_url_name, Ho, basename_trailing_slash.
Qed.

Lemma snapshot_filename_trailing_slash_witness :
  construct_file_name (snapshot_url ["2020"; "http://e.com/dir/?page=2"])
  = Some ("2020" +:+ "_").
Proof.
  exact (snapshot_filename_trailing_slash "2020" "http://e.com/dir/?page=2"
           "http://e.com/dir" [] eq_refl eq_refl).
Defined.

(** X4.  A query string appended to a URL that derives a name does not
    change the name: snapshots that differ only in their query collide. *)
Theorem query_ignored (u q : string) :
  construct_file_name u <> None ->
  construct_file_name (u +:+ "?" +:+ q) = construct_file_name u.
Proof.
  unfold construct_file_name. intros Hu.
  destruct (PyStr.index "/web/" u) as [i|] eqn:Hi; [|done].
  destruct (PyStr.index "if_/" u) as [j|] eqn:Hj; [|done].
  rewrite (index_app_l _ _ _ _ Hi), (index_app_l _ _ _ _ Hj).
  assert (Hli : i + 5 <= String.length u).
  { apply index_Some in Hi as (x & y & -> & <-). rewrite !length_app_s. simpl. lia. }
  assert (Hlj : j + 4 <= String.length u).
  { apply index_Some in Hj as (x & y & -> & <-). rewrite !length_app_s. simpl. lia. }
  assert (Hs : PyStr.slice (i + 5) j (u +:+ "?" +:+ q) = PyStr.slice (i + 5) j u).
  { unfold PyStr.slice. rewrite drop_app_le by done.
    apply take_app_le. rewrite length_drop_s. lia. }
  assert (Hb : PyStr.before "?" (PyStr.drop (j + 4) (u +:+ "?" +:+ q))
               = PyStr.before "?" (PyStr.drop (j + 4) u)).
  { rewrite drop_app_le by done. apply before_app. }
  by rewrite Hs, Hb.
Qed.

Lemma query_ignored_witness :
  construct_file_name (url_a +:+ "?" +:+ "v=2") = construct_file_name url_a.
Proof. apply query_ignored. discriminate. Defined.

Lemma sanitize_length (s : string) : String.length (sanitize s) = String.length s.
Proof. unfold sanitize. induction s as [|c s IH]; [done|]. simpl. by rewrite IH. Qed.

Lemma sanitize_fixed (s : string) : sanitize s = s <-> all_allowed s = true.
Proof.
  unfold sanitize, all_allowed. induction s as [|c s IH]; [done|]. simpl.
  destruct (allowed_char c) eqn:Hc; simpl.
  - rewrite <- IH. split; [by intros [= ->]|by intros ->].
  - split; [|done]. intros [= E _]. rewrite <- E in Hc. discriminate Hc.
Qed.

(** X5.  Sanitizing keeps the length, leaves a string of allowed characters
    as it is (and only such a string), and is idempotent. *)
Theorem sanitize_facts (s : string) :
  String.length (sanitize s) = String.length s
  /\ (sanitize s = s <-> all_allowed s = true)
  /\ sanitize (sanitize s) = sanitize s.
Proof.
  split_and!.
  - apply sanitize_length.
  - apply sanitize_fixed.
  - apply sanitize_fixed, all_allowed_sanitize.
Qed.

(** X6.  Whatever the base URL, the name of the status file consists of
    characters of [[a-zA-Z0-9_.-]] only; in particular it holds no ['/'], so
    the file is created in the working directory itself. *)
Theorem status_file_name_safe (base_url : string) :
  all_allowed (status_file_name base_url) = true
  /\ no_slash (status_file_name base_url) = true
  /\ String.length (status_file_name base_url) = 12 + String.length base_url.
Proof.
  assert (H : all_allowed (status_file_name base_url) = true).
  { unfold status_file_name. by rewrite !all_allowed_app, all_allowed_sanitize. }
  split_and!; [done|by apply all_allowed_no_slash|].
  unfold status_file_name. rewrite !length_app_s, sanitize_length. simpl. lia.
Qed.

(** ** More on the Download Executor *)

Section DownloadMore.

Variable http : nat -> string -> response.

(** The ways one iteration of the download loop can go. *)
Lemma download_one_step (st : status) (w : world) (u : string) :
  (construct_file_name u = None
   /\ download_one http (st, w) u = (add_error u "Invalid file name" st, w))
  \/ (exists f, construct_file_name u = Some f /\ is_Some (files w !! f)
        /\ download_one http (st, w) u = (add_skipped f st, w))
  \/ (exists f body, construct_file_name u = Some f /\ files w !! f = None
        /\ download_one http (st, w) u
           = (add_downloaded f st, write_file f body (log_request u w)))
  \/ (exists f msg, construct_file_name u = Some f /\ files w !! f = None
        /\ download_one http (st, w) u = (add_error u msg st, log_request u w)).
Proof.
  unfold download_one. rewrite truthy_construct_file_name.
  destruct (construct_file_name u) as [f|]; [|by left].
  right. destruct (files w !! f) as [c|] eqn:Hf.
  - left. exists f. by rewrite path_exists_true by (rewrite Hf; eauto).
  - right. rewrite path_exists_false by done.
    destruct (http _ _) as [body|msg]; [left|right]; eauto 6.
Qed.

Lemma download_one_keeps (st : status) (w : world) (u p : string) (c : content) :
  files w !! p = Some c -> files (download_one http (st, w) u).2 !! p = Some c.
Proof.
  intros Hp.
  destruct (download_one_step st w u)
    as [[_ ->]|[(f & _ & _ & ->)|[(f & body & _ & Hno & ->)|(f & msg & _ & _ & ->)]]];
    try done.
  cbn [snd write_file log_request files].
  rewrite lookup_insert_ne; [done|congruence].
Qed.

Lemma fold_download_keeps (urls : list string) (acc : status * world)
    (p : string) (c : content) :
  files acc.2 !! p = Some c ->
  files (fold_left (download_one http) urls acc).2 !! p = Some c.
Proof.
  revert acc. induction urls as [|u urls IH]; intros [st w] Hp; [done|].
  cbn [fold_left]. apply IH. destruct (download_one http (st, w) u) as [st1 w1] eqn:E.
  change w1 with (st1, w1).2. rewrite <- E. by apply download_one_keeps.
Qed.

Lemma fold_download_recorded (urls : list string) (st : status) (w : world) :
  Forall (fun f => is_Some (files w !! f)) (downloaded st ++ skipped st) ->
  Forall (fun f => is_Some (files (fold_left (download_one http) urls (st, w)).2 !! f))
    (downloaded (fold_left (download_one http) urls (st, w)).1
     ++ skipped (fold_left (download_one http) urls (st, w)).1).
Proof.
  revert st w. induction urls as [|u urls IH]; intros st w Hrec; [done|].
  cbn [fold_left].
  destruct (download_one_step st w u)
    as [[_ ->]|[(f & _ & Hex & ->)|[(f & body & _ & Hno & ->)|(f & msg & _ & _ & ->)]]];
    apply IH.
  - done.
  - cbn [add_skipped downloaded skipped]. rewrite app_assoc.
    apply Forall_app. split; [done|]. by apply Forall_singleton.
  - cbn [add_downloaded downloaded skipped write_file log_request files].
    apply Forall_app in Hrec as [Hd Hs].
    assert (Hmono : forall g, is_Some (files w !! g) ->
                              is_Some (<[f:=body]> (files w) !! g)).
    { intros g Hg. rewrite lookup_insert. by case_decide. }
    apply Forall_app. split; [apply Forall_app; split|].
    + eapply Forall_impl; [exact Hd|exact Hmono].
    + apply Forall_singleton. rewrite lookup_insert_eq. eauto.
    + eapply Forall_impl; [exact Hs|exact Hmono].
  - done.
Qed.

Lemma fold_download_requests (urls : list string) (st : status) (w : world) :
  exists l,
    requests (fold_left (download_one http) urls (st, w)).2 = requests w ++ l
    /\ l `sublist_of` urls
    /\ length l + length (skipped (fold_left (download_one http) urls (st, w)).1)
       = length (skipped st) + length (derived_names urls).
Proof.
  revert st w. induction urls as [|u urls IH]; intros st w.
  - exists []. by rewrite app_nil_r.
  - cbn [fold_left]. unfold derived_names. cbn [omap list_omap].
    fold (derived_names urls).
    destruct (download_one_step st w u)
      as [[Hu ->]|[(f & Hu & _ & ->)|[(f & body & Hu & _ & ->)|(f & msg & Hu & _ & ->)]]];
      rewrite Hu.
    + destruct (IH (add_error u "Invalid file name" st) w) as (l & Hr & Hsub & Hlen).
      exists l. split_and!; [done|by constructor|done].
    + destruct (IH (add_skipped f st) w) as (l & Hr & Hsub & Hlen).
      exists l. split_and!; [done|by constructor|].
      cbn [add_skipped skipped] in Hlen. rewrite length_app in Hlen. simpl in *. lia.
    + destruct (IH (add_downloaded f st) (write_file f body (log_request u w)))
        as (l & Hr & Hsub & Hlen).
      exists (u :: l). split_and!.
      * rewrite Hr. cbn [write_file log_request requests]. by rewrite <- app_assoc.
      * by constructor.
      * simpl in *. lia.
    + destruct (IH (add_error u msg st) (log_request u w)) as (l & Hr & Hsub & Hlen).
      exists (u :: l). split_and!.
      * rewrite Hr. cbn [log_request requests]. by rewrite <- app_assoc.
      * by constructor.
      * simpl in *. lia.
Qed.

End DownloadMore.

(** X7.  A download run neither deletes nor overwrites: every file that
    exists before the run, other than the status file, has the same content
    after it. *)
Theorem downloader_keeps_files (http : nat -> string -> response)
    (urls : list string) (base_url : string) (w : world) (p : string) (c : content) :
  files w !! p = Some c ->
  p <> status_file_name base_url ->
  files (downloader http urls base_url w) !! p = Some c.
Proof.
  intros Hp Hne. unfold downloader, downloader_loop.
  assert (H := fold_download_keeps http urls (empty_status, w) p c Hp).
  destruct (fold_left _ _ _) as [st w']. cbn [create_status_file write_file files].
  by rewrite lookup_insert_ne.
Qed.

Lemma downloader_keeps_files_witness :
  files (downloader http_up [url_a; url_b] "http://e.com" two_errors_world_a)
    !! "2020_a.html"
  = Some (Blob "<html>").
Proof. by apply downloader_keeps_files. Defined.

(** X8.  After a download run every file name the status document lists
    under [downloaded] or [skipped] is a file of the working directory. *)
Theorem downloader_recorded_exist (http : nat -> string -> response)
    (urls : list string) (base_url : string) (w : world) :
  Forall (fun f => is_Some (files (downloader http urls base_url w) !! f))
    (downloaded (downloader_loop http urls w).1
     ++ skipped (downloader_loop http urls w).1).
Proof.
  assert (H := fold_download_recorded http urls empty_status w (Forall_nil_2 _)).
  unfold downloader, downloader_loop in *.
  destruct (fold_left _ _ _) as [st w']. cbn [fst snd] in *.
  eapply Forall_impl; [exact H|]. intros f Hf.
  cbn [create_status_file write_file files]. rewrite lookup_insert. by case_decide.
Qed.


(** ** More on the Retry Runner *)

Section RetryMore.

Variable http : nat -> string -> response.

Lemma lift_world {A : Type} (r : dyn A) (w : world) : (lift r w).2 = w.
Proof. by destruct r. Qed.

(** One retry step, on any value and any document, writes no file that
    exists. *)
Lemma retry_one_keeps (url sd : json) (w : world) (p : string) (c : content) :
  files w !! p = Some c -> files (retry_one http url sd w).2 !! p = Some c.
Proof.
  intros Hp. destruct url as [| | |u|l|kv]; try done.
  - unfold retry_one. destruct (truthy _) as [f|]; [|done].
    destruct (path_exists f w) eqn:Hex; [done|].
    assert (Hf : f <> p).
    { intros ->. unfold path_exists in Hex. apply bool_decide_eq_false in Hex.
      apply Hex. rewrite Hp. eauto. }
    destruct (http _ _); rewrite lift_world; [|done].
    cbn [write_file log_request files]. by rewrite lookup_insert_ne.
  - unfold retry_one. by destruct (_ && _).
Qed.

Lemma retry_loop_keeps (urls : list json) (sd : json) (w : world)
    (p : string) (c : content) :
  files w !! p = Some c -> files (retry_loop http urls sd w).2 !! p = Some c.
Proof.
  revert sd w. induction urls as [|url urls IH]; intros sd w Hp; [done|].
  cbn [retry_loop].
  assert (H1 := retry_one_keeps url sd w p c Hp).
  destruct (retry_one http url sd w) as [[sd1| |] w1]; cbn [snd] in *; auto.
Qed.

Lemma retry_one_status_frame (u : string) (st : status) (w : world) :
  skipped (retry_one_status http u (st, w)).1 = skipped st
  /\ downloaded st `prefix_of` downloaded (retry_one_status http u (st, w)).1
  /\ (e_url <$> errors (retry_one_status http u (st, w)).1)
       `sublist_of` (e_url <$> errors st).
Proof.
  destruct (retry_one_status_cases http u st w)
    as [->|[(g & body & _ & _ & ->)|(g & msg & _ & _ & ->)]]; cbn [fst].
  - done.
  - split_and!; [done|by apply prefix_app_r|].
    apply (remove_errors_sublist u (add_downloaded g st)).
  - by rewrite update_errors_urls.
Qed.

Lemma retry_loop_status_frame (us : list string) (st : status) (w : world) :
  skipped (retry_loop_status http us (st, w)).1 = skipped st
  /\ downloaded st `prefix_of` downloaded (retry_loop_status http us (st, w)).1
  /\ (e_url <$> errors (retry_loop_status http us (st, w)).1)
       `sublist_of` (e_url <$> errors st).
Proof.
  revert st w. induction us as [|u us IH]; intros st w; [done|].
  unfold retry_loop_status. cbn [fold_left].
  destruct (retry_one_status_frame u st w) as (Hs1 & Hd1 & He1).
  destruct (retry_one_status http u (st, w)) as [st1 w1]. cbn [fst] in *.
  destruct (IH st1 w1) as (Hs2 & Hd2 & He2). unfold retry_loop_status in *.
  split_and!; [congruence|by etrans|by etrans].
Qed.

End RetryMore.

(** X11.  Whatever the status file holds and however the run ends, a retry
    run neither deletes nor overwrites: every file that exists before it,
    other than the status file, has the same content after it. *)
Theorem retry_keeps_files (http : nat -> string -> response)
    (status_file : string) (w : world) (p : string) (c : content) :
  files w !! p = Some c ->
  p <> status_file ->
  files (retry_failed_downloads http status_file w).2 !! p = Some c.
Proof.
  intros Hp Hne. unfold retry_failed_downloads.
  destruct (files w !! status_file) as [[b|sd]|]; try done.
  destruct (failed_urls_of sd) as [[|url urls]|e]; try done.
  assert (H := retry_loop_keeps http (url :: urls) sd w p c Hp).
  destruct (retry_loop http (url :: urls) sd w) as [[sd1|c1|e1] w1]; cbn [snd] in *;
    try done.
  cbn [write_file files]. by rewrite lookup_insert_ne.
Qed.

Lemma retry_keeps_files_witness :
  files (retry_failed_downloads http_up "status.json" two_errors_world_a).2
    !! "2020_a.html"
  = Some (Blob "<html>").
Proof. by apply retry_keeps_files. Defined.

(** With every write succeeding, on a status file of the form the downloader
    writes. *)
Lemma retry_frame_total (http : nat -> string -> response)
    (status_file : string) (st : status) (w : world) :
  files w !! status_file = Some (Document (status_json st)) ->
  exists st',
    (retry_failed_downloads http status_file w).1 = Returned tt
    /\ files (retry_failed_downloads http status_file w).2 !! status_file
       = Some (Document (status_json st'))
    /\ skipped st' = skipped st
    /\ downloaded st `prefix_of` downloaded st'
    /\ (e_url <$> errors st') `sublist_of` (e_url <$> errors st).
Proof.
  intros Hfile. rewrite (retry_failed_downloads_status http status_file st w Hfile).
  destruct (errors st) as [|e es] eqn:Herr.
  - exists st. split_and!; [done|exact Hfile|done|reflexivity|by rewrite Herr].
  - rewrite <- Herr.
    destruct (retry_loop_status_frame http (e_url <$> errors st) st w) as (Hs & Hd & He).
    eexists. split_and!; [done| |exact Hs|exact Hd|exact He].
    cbn [snd write_file files]. apply lookup_insert_eq.
Qed.



(** ** More on the URL Archive Lookup *)

Lemma filter_nil_Forall {A : Type} (p : A -> bool) (l : list A) :
  List.filter p l = [] <-> Forall (fun x => p x = false) l.
Proof.
  induction l as [|x l IH]; simpl; [by split|].
  destruct (p x) eqn:Hx.
  - split; [done|]. intros [H _]%Forall_cons. congruence.
  - rewrite IH. split; [by constructor|by intros [_ ?]%Forall_cons].
Qed.

Lemma fmap_eq_nil {A B : Type} (f : A -> B) (l : list A) : f <$> l = [] <-> l = [].
Proof. by destruct l. Qed.

Lemma downloader_url_list_nil (obj : list (list string)) :
  Downloader.url_list obj = []
  <-> Forall (fun i => length i <= 1 \/ i = header) obj.
Proof.
  unfold Downloader.url_list. rewrite fmap_eq_nil, filter_nil_Forall.
  apply Forall_iff. intros i. rewrite andb_false_iff, Nat.ltb_ge.
  rewrite bool_decide_eq_false. split; (intros [?|?]; [by left|right]); [|tauto].
  by destruct (decide (i = header)).
Qed.

Lemma gather_url_list_nil (obj : list (list string)) :
  Gather.url_list obj = [] <-> Forall (fun i => length i <= 1) (Gather.drop_header obj).
Proof.
  unfold Gather.url_list. rewrite fmap_eq_nil, filter_nil_Forall.
  apply Forall_iff. intros i. by rewrite Nat.ltb_ge.
Qed.

(** X14.  The lookup of [wayback_downloader.py] never returns an empty
    list: it returns at least one URL or exits with status 1, and it exits
    exactly when the fetch failed or no row has two elements and differs from
    the header row. *)
Theorem downloader_lookup_outcome (fetched : option (list (list string))) :
  (Downloader.get_all_links fetched = Exited 1
   \/ exists l, Downloader.get_all_links fetched = Returned l /\ l <> [])
  /\ (Downloader.get_all_links fetched = Exited 1
      <-> forall obj, fetched = Some obj ->
            Forall (fun i => length i <= 1 \/ i = header) obj).
Proof.
  destruct fetched as [obj|]; simpl; [|split; [by left|by split]].
  destruct (Downloader.url_list obj) as [|x l] eqn:E.
  - split; [by left|]. split; [|done]. intros _ ? [= <-].
    by apply downloader_url_list_nil.
  - split; [right; by eexists|]. split; [done|]. intros H.
    specialize (H obj eq_refl). apply downloader_url_list_nil in H. congruence.
Qed.

(** X15.  The lookup of [wayback_gather.py] never returns an empty list
    either; it exits with status 1 exactly when the fetch failed or, a
    leading header row set aside, no row has two elements. *)
Theorem gather_lookup_outcome (fetched : option (list (list string))) :
  (Gather.get_all_links fetched = Exited 1
   \/ exists l, Gather.get_all_links fetched = Returned l /\ l <> [])
  /\ (Gather.get_all_links fetched = Exited 1
      <-> forall obj, fetched = Some obj ->
            Forall (fun i => length i <= 1) (Gather.drop_header obj)).
Proof.
  destruct fetched as [obj|]; simpl; [|split; [by left|by split]].
  destruct (Gather.url_list obj) as [|x l] eqn:E.
  - split; [by left|]. split; [|done]. intros _ ? [= <-].
    by apply gather_url_list_nil.
  - split; [right; by eexists|]. split; [done|]. intros H.
    specialize (H obj eq_refl). apply gather_url_list_nil in H. congruence.
Qed.

(** ** The entry points *)

Lemma derived_names_all_named (urls : list string) :
  Forall (fun u => is_Some (construct_file_name u)) urls ->
  length (derived_names urls) = length urls.
Proof.
  unfold derived_names. induction 1 as [|u urls [f Hf] _ IH]; [done|].
  csimpl. rewrite Hf. csimpl. by rewrite IH.
Qed.

Section MainProps.

Variable cdx : string -> option (list (list string)).
Variable http : nat -> string -> response.

(** With every write succeeding, in URL mode with a lookup that yields
    snapshot URLs. *)
Lemma downloader_main_url_mode_total (a : args) (u : string)
    (obj : list (list string)) (w : world) :
  truthy (a_retry a) = None ->
  truthy (a_url a) = Some u ->
  cdx (cdx_url u) = Some obj ->
  Downloader.url_list obj <> [] ->
  exists st,
    (downloader_main cdx http a w).1 = Returned tt
    /\ files (downloader_main cdx http a w).2 !! status_file_name u
       = Some (Document (status_json st))
    /\ entries st = length (Downloader.url_list obj)
    /\ length (requests (downloader_main cdx http a w).2)
       = length (requests w) + 1 + length (downloaded st) + length (errors st).
Proof.
  intros Hr Hu Hcdx Hne. unfold downloader_main, lookup_and_download.
  rewrite Hr, Hu, Hcdx. cbn [Downloader.get_all_links].
  destruct (Downloader.url_list obj) as [|x l] eqn:E; [done|]. rewrite <- E. clear Hne.
  set (urls := Downloader.url_list obj) in *.
  set (w1 := log_request (cdx_url u) w).
  assert (Hnamed : Forall (fun v => is_Some (construct_file_name v)) urls).
  { unfold urls, Downloader.url_list. apply Forall_fmap, Forall_forall.
    intros i _. apply snapshot_url_named. }
  assert (Hent := fold_download_entries http urls (empty_status, w1)).
  destruct (fold_download_requests http urls empty_status w1) as (rs & Hreq & _ & Hlen).
  rewrite (derived_names_all_named urls Hnamed) in Hlen.
  unfold downloader, downloader_loop.
  destruct (fold_left (download_one http) urls (empty_status, w1)) as [st w'].
  cbn [fst snd] in *. exists st. split_and!.
  - done.
  - cbn [create_status_file write_file files]. apply lookup_insert_eq.
  - rewrite Hent. unfold entries. simpl. lia.
  - cbn [create_status_file write_file requests]. rewrite Hreq, length_app.
    unfold w1. cbn [log_request requests]. rewrite length_app.
    unfold entries in Hent. simpl in *. lia.
Qed.

(** X17.  For a non-empty base URL and a response in which no row after
    the first is the header row, [main] of [wayback_gather.py] does exactly
    what [main] of [wayback_downloader.py] does when given [--url] alone. *)
Theorem mains_agree (debug : bool) (u : string) (w : world) :
  u <> "" ->
  (forall obj, cdx (cdx_url u) = Some obj -> header ∉ tail obj) ->
  gather_main cdx http u w
  = downloader_main cdx http {| a_debug := debug; a_url := Some u; a_retry := None |} w.
Proof.
  intros Hu Hobj. unfold gather_main, downloader_main, lookup_and_download.
  cbn [a_retry a_url truthy]. apply String.eqb_neq in Hu as ->.
  destruct (cdx (cdx_url u)) as [obj|]; [|done].
  cbn [Gather.get_all_links Downloader.get_all_links].
  by rewrite (url_list_agree obj (Hobj obj eq_refl)).
Qed.

End MainProps.

Lemma mains_agree_witness :
  gather_main cdx_example http_up "http://e.com" fresh_world
  = downloader_main cdx_example http_up
      {| a_debug := true; a_url := Some "http://e.com"; a_retry := None |} fresh_world.
Proof.
  apply mains_agree; [discriminate|].
  intros obj [= <-]. apply (bool_decide_unpack _). vm_compute. exact I.
Defined.

(** * Runs in which [open] can fail *)

Section OpensProps.

Variable http : nat -> string -> response.
Variable can_open : string -> bool.

(** A loop that gets through did what the loop with successful writes does. *)
Lemma download_loop_io_inl (urls : list string) (st : status) (w : world)
    (r : status * world) :
  download_loop_io http can_open urls st w = inl r ->
  r = fold_left (download_one http) urls (st, w).
Proof.
  revert st w. induction urls as [|url urls IH]; intros st w; cbn [download_loop_io fold_left].
  - by intros [= <-].
  - unfold download_one. destruct (truthy _) as [f|]; [|apply IH].
    destruct (path_exists f w); [apply IH|].
    destruct (http _ _) as [body|msg]; [|apply IH].
    destruct (can_open f); [apply IH|done].
Qed.

(** A loop that stops does so at a path that cannot be opened. *)
Lemma download_loop_io_inr (urls : list string) (st : status) (w w' : world)
    (path : string) :
  download_loop_io http can_open urls st w = inr (path, w') -> can_open path = false.
Proof.
  revert st w. induction urls as [|url urls IH]; intros st w; cbn [download_loop_io];
    [done|].
  destruct (truthy _) as [f|]; [|apply IH].
  destruct (path_exists f w); [apply IH|].
  destruct (http _ _) as [body|msg]; [|apply IH].
  destruct (can_open f) eqn:E; [apply IH|]. by intros [= <- _].
Qed.

Lemma downloader_io_Ends (urls : list string) (base_url : string) (w w' : world)
    (o : outcome unit) :
  downloader_io http can_open urls base_url w = (Ends o, w') ->
  o = Returned tt /\ w' = downloader http urls base_url w.
Proof.
  unfold downloader_io, downloader, downloader_loop.
  destruct (download_loop_io _ _ _ _ _) as [[st w1]|[path w1]] eqn:E; [|done].
  apply download_loop_io_inl in E as <-.
  destruct (can_open _); [|done]. by intros [= <- <-].
Qed.

Lemma downloader_io_failed (urls : list string) (base_url : string) (w w' : world)
    (path : string) :
  downloader_io http can_open urls base_url w = (OpenFailed path, w') ->
  can_open path = false.
Proof.
  unfold downloader_io.
  destruct (download_loop_io _ _ _ _ _) as [[st w1]|[p w1]] eqn:E.
  - destruct (can_open _) eqn:Ho; [done|]. by intros [= <- _].
  - intros [= <- _]. by apply download_loop_io_inr in E.
Qed.

Lemma lift_io_Ends {A : Type} (r : dyn A) (w w' : world) (o : outcome A) :
  lift_io r w = (Ends o, w') -> lift r w = (o, w').
Proof. destruct r; by intros [= <- <-]. Qed.

Lemma retry_one_io_Ends (url sd : json) (w w' : world) (o : outcome json) :
  retry_one_io http can_open url sd w = (Ends o, w') ->
  retry_one http url sd w = (o, w').
Proof.
  destruct url as [| | |u|l|kv]; cbn [retry_one_io retry_one]; try by intros [= <- <-].
  - destruct (truthy _) as [f|]; [|by intros [= <- <-]].
    destruct (path_exists f w); [by intros [= <- <-]|].
    destruct (http _ _) as [body|msg]; [|apply lift_io_Ends].
    destruct (can_open f); [apply lift_io_Ends|done].
  - destruct (_ && _); by intros [= <- <-].
Qed.

Lemma retry_one_io_failed (url sd : json) (w w' : world) (path : string) :
  retry_one_io http can_open url sd w = (OpenFailed path, w') -> can_open path = false.
Proof.
  destruct url as [| | |u|l|kv]; cbn [retry_one_io]; try done.
  - destruct (truthy _) as [f|]; [|done].
    destruct (path_exists f w); [done|].
    destruct (http _ _) as [body|msg].
    + destruct (can_open f) eqn:E; [by destruct (record_success _ _ _)|].
      by intros [= <- _].
    + by destruct (record_failure _ _ _).
  - by destruct (_ && _).
Qed.

Lemma retry_loop_io_Ends (urls : list json) (sd : json) (w w' : world)
    (o : outcome json) :
  retry_loop_io http can_open urls sd w = (Ends o, w') ->
  retry_loop http urls sd w = (o, w').
Proof.
  revert sd w. induction urls as [|url urls IH]; intros sd w;
    cbn [retry_loop_io retry_loop]; [by intros [= <- <-]|].
  destruct (retry_one_io http can_open url sd w) as [[o1|p] w1] eqn:E; [|done].
  rewrite (retry_one_io_Ends _ _ _ _ _ E).
  destruct o1 as [sd1|c|e]; [apply IH|by intros [= <- <-]..].
Qed.

Lemma retry_loop_io_failed (urls : list json) (sd : json) (w w' : world)
    (path : string) :
  retry_loop_io http can_open urls sd w = (OpenFailed path, w') ->
  can_open path = false.
Proof.
  revert sd w. induction urls as [|url urls IH]; intros sd w;
    cbn [retry_loop_io]; [done|].
  destruct (retry_one_io http can_open url sd w) as [[o1|p] w1] eqn:E.
  - destruct o1 as [sd1|c|e]; [apply IH|done..].
  - intros [= <- _]. by apply retry_one_io_failed in E.
Qed.

Lemma retry_failed_downloads_io_Ends (status_file : string) (w w' : world)
    (o : outcome unit) :
  retry_failed_downloads_io http can_open status_file w = (Ends o, w') ->
  retry_failed_downloads http status_file w = (o, w').
Proof.
  unfold retry_failed_downloads_io, retry_failed_downloads.
  destruct (files w !! status_file) as [[b|sd]|]; try by intros [= <- <-].
  destruct (failed_urls_of sd) as [[|url urls]|e]; try by intros [= <- <-].
  destruct (retry_loop_io http can_open (url :: urls) sd w) as [[o1|p] w1] eqn:E; [|done].
  rewrite (retry_loop_io_Ends _ _ _ _ _ E).
  destruct o1 as [sd1|c|e]; try by intros [= <- <-].
  destruct (can_open status_file); [|done]. by intros [= <- <-].
Qed.

Lemma retry_failed_downloads_io_failed (status_file : string) (w w' : world)
    (path : string) :
  retry_failed_downloads_io http can_open status_file w = (OpenFailed path, w') ->
  can_open path = false.
Proof.
  unfold retry_failed_downloads_io.
  destruct (files w !! status_file) as [[b|sd]|]; try done.
  destruct (failed_urls_of sd) as [[|url urls]|e]; try done.
  destruct (retry_loop_io http can_open (url :: urls) sd w) as [[o1|p] w1] eqn:E.
  - destruct o1 as [sd1|c|e]; try done.
    destruct (can_open status_file) eqn:Ho; [done|]. by intros [= <- _].
  - intros [= <- _]. by apply retry_loop_io_failed in E.
Qed.

End OpensProps.



(** C5 (as amended).  Let no two entries of the URL list derive the same
    file name.  Then after every completed iteration of the download loop
    each URL is represented in at most one of the three lists; and after
    every completed iteration of a retry loop over the resulting document,
    in any working directory, this still holds, [skipped] is as it was,
    [downloaded] has only been appended to, and [errors] has only lost
    entries or had messages rewritten in place.  Inside a retry iteration,
    between the append to [downloaded] and the filtering of [errors], the
    URL is in both lists; the statement is about the states between
    iterations. *)
Theorem one_list_after_each_iteration
    (http1 http2 : nat -> string -> response) (open1 open2 : string -> bool)
    (urls : list string) (w wn w1 w1' w2 : world) (n m : nat) (u : string)
    (stn st1 : status) (sd : json) :
  NoDup (derived_names urls) ->
  download_loop_io http1 open1 (take n urls) empty_status w = inl (stn, wn) ->
  download_loop_io http1 open1 urls empty_status w = inl (st1, w1) ->
  retry_loop_io http2 open2 (JStr <$> take m (e_url <$> errors st1))
    (status_json st1) w1' = (Ends (Returned sd), w2) ->
  lists_representing stn u <= 1
  /\ exists st2,
       sd = status_json st2
       /\ lists_representing st2 u <= 1
       /\ skipped st2 = skipped st1
       /\ downloaded st1 `prefix_of` downloaded st2
       /\ (e_url <$> errors st2) `sublist_of` (e_url <$> errors st1).
Proof.
  intros Hnd Hn Hfull Hretry.
  apply download_loop_io_inl in Hn, Hfull.
  apply retry_loop_io_Ends in Hretry.
  destruct (one_list_per_url_total http1 http2 urls w w1' n m u Hnd)
    as (Hstn & st2 & w2' & Hloop & Hrest).
  fold (downloader_loop http1 (take n urls) w) in Hn.
  fold (downloader_loop http1 urls w) in Hfull.
  rewrite <- Hn in Hstn. rewrite <- Hfull in Hloop, Hrest. cbn [fst] in *.
  split; [done|]. exists st2. split; [congruence|done].
Qed.

Lemma one_list_after_each_iteration_witness :
  lists_representing
    (downloader_loop http_first (take 2 [url_a; url_b; "no markers"]) fresh_world).1
    url_b <= 1.
Proof.
  apply (proj1 (one_list_after_each_iteration http_first http_up
                  flat_directory flat_directory [url_a; url_b; "no markers"]
                  fresh_world
                  (downloader_loop http_first [url_a; url_b] fresh_world).2
                  (downloader_loop http_first [url_a; url_b; "no markers"] fresh_world).2
                  fresh_world
                  (retry_loop_status http_up [url_b]
                     ((downloader_loop http_first [url_a; url_b; "no markers"]
                         fresh_world).1, fresh_world)).2
                  2 1 url_b
                  (downloader_loop http_first [url_a; url_b] fresh_world).1
                  (downloader_loop http_first [url_a; url_b; "no markers"] fresh_world).1
                  (status_json
                     {| downloaded := ["2020_a.html"; "2021_b.html"]; skipped := [];
                        errors := [{| e_url := "no markers";
                                      e_error := "Invalid file name" |}] |})
                  ltac:(apply (bool_decide_unpack _); vm_compute; exact I)
                  ltac:(vm_compute; reflexivity)
                  ltac:(vm_compute; reflexivity)
                  ltac:(vm_compute; reflexivity))).
Defined.

(** X10.  The status file a download run writes is never turned away by
    the retry run: on it, [retry_failed_downloads] does not exit and raises
    no error of its own.  It returns normally, unless an [open] fails. *)
Theorem downloader_status_loads (http1 http2 : nat -> string -> response)
    (open1 open2 : string -> bool) (urls : list string) (base_url : string)
    (w w1 : world) :
  downloader_io http1 open1 urls base_url w = (Ends (Returned tt), w1) ->
  (retry_failed_downloads_io http2 open2 (status_file_name base_url) w1).1
    = Ends (Returned tt)
  \/ exists path,
       (retry_failed_downloads_io http2 open2 (status_file_name base_url) w1).1
         = OpenFailed path
       /\ open2 path = false.
Proof.
  intros [_ ->]%downloader_io_Ends.
  destruct (retry_failed_downloads_io _ _ _ _) as [[o|path] w2] eqn:E.
  - left. apply retry_failed_downloads_io_Ends in E.
    rewrite (retry_failed_downloads_status http2 _ (downloader_loop http1 urls w).1)
      in E.
    + destruct (errors _); by injection E as <- _.
    + unfold downloader. destruct (downloader_loop http1 urls w).
      apply lookup_insert_eq.
  - right. exists path. split; [done|].
    by apply retry_failed_downloads_io_failed in E.
Qed.

Lemma downloader_status_loads_witness :
  (retry_failed_downloads_io http_up flat_directory (status_file_name "http://e.com")
     (downloader http_down [url_a; url_b] "http://e.com" fresh_world)).1
    = Ends (Returned tt)
  \/ exists path,
       (retry_failed_downloads_io http_up flat_directory
          (status_file_name "http://e.com")
          (downloader http_down [url_a; url_b] "http://e.com" fresh_world)).1
         = OpenFailed path
       /\ flat_directory path = false.
Proof.
  apply (downloader_status_loads http_down http_up flat_directory flat_directory
           [url_a; url_b] "http://e.com" fresh_world).
  vm_compute. reflexivity.
Defined.

(** X12.  On a status file of the form the downloader writes, a retry run
    that no failing [open] stops returns normally and leaves such a document
    in the file; [skipped] is unchanged, [downloaded] has only been appended
    to, and the URLs of [errors] are a sublist of what they were. *)
Theorem retry_frame (http : nat -> string -> response) (can_open : string -> bool)
    (status_file : string) (st : status) (w w' : world) (o : outcome unit) :
  files w !! status_file = Some (Document (status_json st)) ->
  retry_failed_downloads_io http can_open status_file w = (Ends o, w') ->
  o = Returned tt
  /\ exists st',
       files w' !! status_file = Some (Document (status_json st'))
       /\ skipped st' = skipped st
       /\ downloaded st `prefix_of` downloaded st'
       /\ (e_url <$> errors st') `sublist_of` (e_url <$> errors st).
Proof.
  intros Hfile Hrun. apply retry_failed_downloads_io_Ends in Hrun.
  destruct (retry_frame_total http status_file st w Hfile) as (st' & Ho & Hrest).
  rewrite Hrun in Ho, Hrest. cbn [fst snd] in *. split; [done|]. by exists st'.
Qed.

Lemma retry_frame_witness :
  Returned tt = Returned tt
  /\ exists st',
       files (retry_failed_downloads http_first "status.json" two_errors_world).2
         !! "status.json"
       = Some (Document (status_json st'))
       /\ skipped st' = skipped two_errors
       /\ downloaded two_errors `prefix_of` downloaded st'
       /\ (e_url <$> errors st') `sublist_of` (e_url <$> errors two_errors).
Proof.
  apply (retry_frame http_first flat_directory "status.json" two_errors
           two_errors_world); vm_compute; reflexivity.
Defined.

Section MainIOProps.

Variable cdx : string -> option (list (list string)).
Variable http : nat -> string -> response.
Variable can_open : string -> bool.

Lemma downloader_main_io_Ends (a : args) (w w' : world) (o : outcome unit) :
  downloader_main_io cdx http can_open (Returned a) w = (Ends o, w') ->
  downloader_main cdx http a w = (o, w').
Proof.
  unfold downloader_main_io, downloader_main.
  destruct (truthy (a_retry a)) as [status_file|];
    [apply retry_failed_downloads_io_Ends|].
  destruct (truthy (a_url a)) as [u|]; [|by intros [= <- <-]].
  unfold lookup_and_download_io, lookup_and_download.
  destruct (Downloader.get_all_links _) as [l|c|e]; try by intros [= <- <-].
  by intros [-> ->]%downloader_io_Ends.
Qed.

(** X16.  In URL mode, with arguments that parse and a lookup that yields
    snapshot URLs, a [main] that no failing [open] stops returns normally and
    leaves a status document with one entry per snapshot URL; besides the
    lookup it issued one request per entry of [downloaded] and [errors], so
    no entry of [errors] stands for an underivable name. *)
Theorem downloader_main_url_mode (a : args) (u : string)
    (obj : list (list string)) (w w' : world) (o : outcome unit) :
  truthy (a_retry a) = None ->
  truthy (a_url a) = Some u ->
  cdx (cdx_url u) = Some obj ->
  Downloader.url_list obj <> [] ->
  downloader_main_io cdx http can_open (Returned a) w = (Ends o, w') ->
  o = Returned tt
  /\ exists st,
       files w' !! status_file_name u = Some (Document (status_json st))
       /\ entries st = length (Downloader.url_list obj)
       /\ length (requests w')
          = length (requests w) + 1 + length (downloaded st) + length (errors st).
Proof.
  intros Hr Hu Hcdx Hne Hrun. apply downloader_main_io_Ends in Hrun.
  destruct (downloader_main_url_mode_total cdx http a u obj w Hr Hu Hcdx Hne)
    as (st & Ho & Hrest).
  rewrite Hrun in Ho, Hrest. cbn [fst snd] in *. split; [done|]. by exists st.
Qed.

End MainIOProps.

Lemma downloader_main_url_mode_witness :
  Returned tt = Returned tt
  /\ exists st,
       files (downloader_main cdx_example http_up
                {| a_debug := false; a_url := Some "http://e.com"; a_retry := None |}
                fresh_world).2 !! status_file_name "http://e.com"
       = Some (Document (status_json st))
       /\ entries st
          = length (Downloader.url_list [header; ["2020"; "http://e.com/a.html"]])
       /\ length (requests (downloader_main cdx_example http_up
                    {| a_debug := false; a_url := Some "http://e.com"; a_retry := None |}
                    fresh_world).2)
          = length (requests fresh_world) + 1 + length (downloaded st)
            + length (errors st).
Proof.
  apply (downloader_main_url_mode cdx_example http_up flat_directory
           {| a_debug := false; a_url := Some "http://e.com"; a_retry := None |}
           "http://e.com" [header; ["2020"; "http://e.com/a.html"]] fresh_world);
    try (vm_compute; reflexivity).
  discriminate.
Defined.
